(** * Apps admin router and availability page: a shallow embedding

    The development follows two source files of the repository:
    - [packages/trpc/server/routers/viewer/apps.tsx]: the tRPC procedures
      [listLocal], [toggle] and [saveKeys] of [appsRouter];
    - the availability page, of which only [getStaticProps] carries logic
      that is stated here.

    Stateful code is written in a state-and-exception monad over the
    relational store the procedures reach through [ctx.prisma], extended with
    the log of e-mail sends.  Values that cross the JSON boundary are
    modelled by [Json]; a JavaScript [undefined] is [None : option Json]. *)

From stdpp Require Import gmap strings list fin_maps pretty.
From Stdlib Require Import ZArith.

Local Open Scope string_scope.
Local Open Scope list_scope.
Set Warnings "-register-all".

(** ** JSON values *)

Module Js.

(** Number literals are restricted to integers: no procedure below computes
    with them, they are only stored, returned and tested for truthiness. *)
Inductive Json : Type :=
  | JNull
  | JBool (b : bool)
  | JNum (n : Z)
  | JStr (s : string)
  | JArr (items : list Json)
  | JObj (fields : list (string * Json)).

(** [o[k]] on the own properties of an object literal. *)
Fixpoint assoc {A} (k : string) (l : list (string * A)) : option A :=
  match l with
  | [] => None
  | (k', v) :: l' => if decide (k' = k) then Some v else assoc k l'
  end.

(** [{ ...o, [k]: v }] on the property list of [o]: an existing property is
    overwritten in place, a new one is added last. *)
Fixpoint setField {A} (k : string) (v : A) (l : list (string * A)) : list (string * A) :=
  match l with
  | [] => [(k, v)]
  | (k', v') :: l' => if decide (k' = k) then (k, v) :: l' else (k', v') :: setField k v l'
  end.

(** JavaScript truthiness of a value, [undefined] included. *)
Definition truthy (v : option Json) : bool :=
  match v with
  | None | Some JNull => false
  | Some (JBool b) => b
  | Some (JNum n) => negb (n =? 0)%Z
  | Some (JStr s) => negb (String.eqb s "")
  | Some (JArr _) | Some (JObj _) => true
  end.

(** Truthiness of a string, as in [s || "en"] and [if (s)]. *)
Definition truthyStr (s : string) : bool := negb (String.eqb s "").

(** [a || b] on optional strings. *)
Definition orElseStr (a : option string) (b : string) : string :=
  match a with
  | Some s => if truthyStr s then s else b
  | None => b
  end.

(** Own enumerable properties copied by an object spread [{ ...v }]:
    nothing for [undefined], [null], booleans and numbers, the indexed
    elements for arrays and the indexed characters for strings. *)
Definition indexed {A} (l : list A) : list (string * A) :=
  imap (fun i x => (pretty i, x)) l.

Fixpoint chars (s : string) : list Json :=
  match s with
  | EmptyString => []
  | String c s' => JStr (String c EmptyString) :: chars s'
  end.

Definition spread (v : option Json) : list (string * Json) :=
  match v with
  | Some (JObj fields) => fields
  | Some (JArr items) => indexed items
  | Some (JStr s) => indexed (chars s)
  | _ => []
  end.

End Js.
Export Js.

(** ** Errors and results *)

Inductive TRPCCode := UNAUTHORIZED | INTERNAL_SERVER_ERROR.

Record ZodIssue := mkIssue { issue_code : string; issue_path : list string }.

Inductive Error :=
  | TRPCError (code : TRPCCode)
  | ZodError (issues : list ZodIssue)
  | TypeError (what : string)
  | ReferenceError (ident : string)
  | PrismaRecordNotFound
  | PrismaValidationError
  | MailError.

Inductive Result (A : Type) :=
  | Ok (a : A)
  | Err (e : Error).
Arguments Ok {A} a.
Arguments Err {A} e.

(** [v.k]: reading a property of [undefined] or [null] throws, reading a
    missing property gives [undefined]. *)
Definition getProp (v : option Json) (k : string) : Result (option Json) :=
  match v with
  | None | Some JNull => Err (TypeError k)
  | Some (JObj fields) => Ok (assoc k fields)
  | Some (JArr items) => Ok (assoc k (indexed items))
  | Some (JStr s) => Ok (assoc k (indexed (chars s)))
  | Some _ => Ok None
  end.

(** ** Zod object schemas

    Both files validate with [z.object({...})] schemas: [querySchema] in the
    page, and the entries of [appKeysSchemas], on which [listLocal] calls
    [keyof()].  A field schema is any parser from the (possibly missing)
    property to a value or a list of issues. *)

Module Zod.

Definition ZodType := option Json -> list ZodIssue + option Json.

Inductive UnknownKeys := strip | passthrough | strict.

Record ZodObject := mkZodObject {
  shape : list (string * ZodType);
  unknownKeys : UnknownKeys
}.

Definition prefixPath (k : string) (i : ZodIssue) : ZodIssue :=
  mkIssue (issue_code i) (k :: issue_path i).

(** Every key of the shape is parsed and the issues of all of them are
    collected; one invalid field makes the object invalid. *)
Fixpoint parseShape (sh : list (string * ZodType)) (data : list (string * Json))
  : list ZodIssue + list (string * Json) :=
  match sh with
  | [] => inr []
  | (k, ty) :: sh' =>
      match ty (assoc k data), parseShape sh' data with
      | inl errs, inl issues => inl (map (prefixPath k) errs ++ issues)
      | inl errs, inr _ => inl (map (prefixPath k) errs)
      | inr _, inl issues => inl issues
      | inr (Some v), inr out => inr ((k, v) :: out)
      | inr None, inr out => inr out
      end
  end.

Definition extraKeys (sh : list (string * ZodType)) (data : list (string * Json))
  : list (string * Json) :=
  filter (fun kv => bool_decide (kv.1 ∉ sh.*1)) data.

Definition unrecognized : ZodIssue := mkIssue "unrecognized_keys" [].

(** [schema.safeParse(v)]: only an object is accepted; keys outside the
    shape are dropped, kept or rejected according to [unknownKeys]. *)
Definition safeParse (o : ZodObject) (v : option Json) : Result Json :=
  match v with
  | Some (JObj data) =>
      let extra := extraKeys (shape o) data in
      match parseShape (shape o) data, unknownKeys o, extra with
      | inl issues, strict, _ :: _ => Err (ZodError (issues ++ [unrecognized]))
      | inl issues, _, _ => Err (ZodError issues)
      | inr _, strict, _ :: _ => Err (ZodError [unrecognized])
      | inr out, passthrough, _ => Ok (JObj (out ++ extra))
      | inr out, _, _ => Ok (JObj out)
      end
  | _ => Err (ZodError [mkIssue "invalid_type" []])
  end.

(** [schema.parse(v)] throws what [safeParse] reports. *)
Definition parse (o : ZodObject) (v : option Json) : Result Json := safeParse o v.

(** [schema.keyof()._def.values]: the key names of the shape. *)
Definition keyofValues (o : ZodObject) : list string := (shape o).*1.

End Zod.

(** ** The relational store

    Tables reached through [ctx.prisma].  [App] is keyed by its unique
    [slug], [User] and [EventType] by their numeric [id]; [Credential] rows
    are only read. *)

Record AppRow := mkApp {
  app_categories : list string;
  app_keys : Json;
  app_enabled : bool
}.

Record User := mkUser {
  user_email : string;
  user_locale : option string
}.

Record Credential := mkCredential {
  cred_appId : option string;
  cred_userId : option nat
}.

Record EventType := mkEventType {
  et_title : string;
  et_users : list nat;
  et_metadata : Json
}.

(** [t] as returned by [getTranslation(locale, ns)]: the translator is
    identified by the locale and namespace it was loaded for. *)
Record TFunction := mkT { t_locale : string; t_ns : string }.

Definition getTranslation (locale ns : string) : TFunction := mkT locale ns.

(** The two shapes in which [toggle] calls [sendDisabledAppEmail]: with one
    object of named fields (calendar and video apps), and with six
    positional arguments (other apps). *)
Inductive SendArgs :=
  | DisabledAppEmail (email appName : string) (appType : list string) (t : TFunction)
  | DisabledAppEmailPositional (title email : string) (name : option string)
      (categories : option (list string)) (id : nat) (t : TFunction).

Record Store := mkStore {
  apps : gmap string AppRow;
  users : gmap nat User;
  credentials : list Credential;
  eventTypes : gmap nat EventType;
  outbox : list SendArgs
}.

Definition setApps (f : gmap string AppRow -> gmap string AppRow) (st : Store) : Store :=
  mkStore (f (apps st)) (users st) (credentials st) (eventTypes st) (outbox st).

Definition setEventTypes (f : gmap nat EventType -> gmap nat EventType) (st : Store) : Store :=
  mkStore (apps st) (users st) (credentials st) (f (eventTypes st)) (outbox st).

Definition logSend (a : SendArgs) (st : Store) : Store :=
  mkStore (apps st) (users st) (credentials st) (eventTypes st) (outbox st ++ [a]).

(** ** The procedure monad: state, and exceptions that keep the state *)

Definition M (A : Type) : Type := Store -> Store * Result A.

#[global] Instance M_ret : MRet M := fun A a st => (st, Ok a).

#[global] Instance M_bind : MBind M := fun A B k m st =>
  match m st with
  | (st', Ok a) => k a st'
  | (st', Err e) => (st', Err e)
  end.

Definition throw {A} (e : Error) : M A := fun st => (st, Err e).

(** [await]ing an already settled outcome. *)
Definition liftR {A} (r : Result A) : M A := fun st => (st, r).

(** A promise that is started and not awaited: the body of the [async]
    function runs on the store, its outcome (fulfilled or rejected) is a
    value and raises nothing in the caller. *)
Definition start {A} (task : M A) : M (Result A) := fun st =>
  let '(st', r) := task st in (st', Ok r).

(** [xs.map(async (x) => ...)]: one started promise per element. *)
Fixpoint startAll {A} (tasks : list (M A)) : M (list (Result A)) :=
  match tasks with
  | [] => mret []
  | task :: rest =>
      r ← start task;
      rs ← startAll rest;
      mret (r :: rs)
  end.

(** [Promise.all]: rejected with the first rejection, else fulfilled with
    all the values. *)
Fixpoint promiseAll {A} (ps : list (Result A)) : Result (list A) :=
  match ps with
  | [] => Ok []
  | Ok a :: ps' =>
      match promiseAll ps' with
      | Ok l => Ok (a :: l)
      | Err e => Err e
      end
  | Err e :: _ => Err e
  end.

(** An identifier evaluated in a scope: a [ReferenceError] when no binding
    of that name is visible. *)
Definition ident {A} (scope : list (string * A)) (x : string) : M A :=
  match assoc x scope with
  | Some v => mret v
  | None => throw (ReferenceError x)
  end.

(** ** Prisma client calls used by the router *)

Module Prisma.

(** [app.findMany({ where: { categories: { has: c } }, select: {...} })]:
    rows paired with their slug.  [c] is passed as a value of the enum
    [AppCategories]; the client validates enum arguments before it queries. *)
Definition app_findMany_has (isAppCategory : string -> bool) (c : string)
  : M (list (string * AppRow)) := fun st =>
  if isAppCategory c
  then (st, Ok (filter (fun r => bool_decide (c ∈ app_categories r.2)) (map_to_list (apps st))))
  else (st, Err PrismaValidationError).

(** [app.update({ where: { slug }, data: { enabled } })]: the updated row, or
    the client's record-not-found error. *)
Definition app_update_enabled (slug : string) (enabled : bool) : M (string * AppRow) := fun st =>
  match apps st !! slug with
  | Some row =>
      let row' := mkApp (app_categories row) (app_keys row) enabled in
      (setApps <[slug := row']> st, Ok (slug, row'))
  | None => (st, Err PrismaRecordNotFound)
  end.

(** [app.update({ where: { slug }, data: { keys } })]: an [undefined] value in
    [data] leaves the column as it is. *)
Definition app_update_keys (slug : string) (keys : option Json) : M (string * AppRow) := fun st =>
  match apps st !! slug with
  | Some row =>
      let row' := mkApp (app_categories row) (default (app_keys row) keys) (app_enabled row) in
      (setApps <[slug := row']> st, Ok (slug, row'))
  | None => (st, Err PrismaRecordNotFound)
  end.

(** The relation [user: { select: { email, locale } }] of a credential. *)
Definition cred_user (st : Store) (c : Credential) : option User :=
  cred_userId c ≫= fun uid => users st !! uid.

(** [credential.findMany({ where: { appId }, select: { user } })]. *)
Definition credential_findMany (appId : string) : M (list (option User)) := fun st =>
  (st, Ok (map (cred_user st)
             (filter (fun c => bool_decide (cred_appId c = Some appId)) (credentials st)))).

(** A JSON path of object keys, as in [metadata: { path, equals }]. *)
Fixpoint getPath (path : list string) (v : Json) : option Json :=
  match path with
  | [] => Some v
  | k :: path' =>
      match v with
      | JObj fields => assoc k fields ≫= getPath path'
      | _ => None
      end
  end.

Definition marksEnabled (slug : string) (e : EventType) : bool :=
  match getPath ["apps"; slug; "enabled"] (et_metadata e) with
  | Some (JBool true) => true
  | _ => false
  end.

(** The selected columns of an event type: [id], [title], [users], [metadata]. *)
Record EventTypeSel := mkSel {
  sel_id : nat;
  sel_title : string;
  sel_users : list User;
  sel_metadata : Json
}.

Definition selectEventType (st : Store) (r : nat * EventType) : EventTypeSel :=
  mkSel r.1 (et_title r.2) (omap (fun uid => users st !! uid) (et_users r.2)) (et_metadata r.2).

(** [eventType.findMany({ where: { metadata: { path: ["apps", slug,
    "enabled"], equals: true } }, select: {...} })]. *)
Definition eventType_findMany (slug : string) : M (list EventTypeSel) := fun st =>
  (st, Ok (map (selectEventType st)
             (filter (fun r => marksEnabled slug r.2) (map_to_list (eventTypes st))))).

(** [eventType.update({ where: { id }, data: { metadata } })]. *)
Definition eventType_update_metadata (id : nat) (metadata : Json) : M unit := fun st =>
  match eventTypes st !! id with
  | Some e =>
      (setEventTypes <[id := mkEventType (et_title e) (et_users e) metadata]> st, Ok tt)
  | None => (st, Err PrismaRecordNotFound)
  end.

End Prisma.

(** ** The apps router *)

Inductive UserPermissionRole := USER | ADMIN.

(** The context [authedProcedure] hands to a resolver: the session of a
    signed-in user. *)
Record Ctx := mkCtx { session_user_role : UserPermissionRole }.

Definition isAdmin (ctx : Ctx) : bool :=
  match session_user_role ctx with ADMIN => true | USER => false end.

(** One entry of [getLocalAppMetadata()]. *)
Record LocalApp := mkLocalApp {
  la_name : string;
  la_slug : string;
  la_logo : string;
  la_title : option string;
  la_type : string;
  la_description : string;
  la_variant : string;
  la_categories : list string
}.

Record FilteredApp := mkFilteredApp {
  fa_name : string;
  fa_slug : string;
  fa_logo : string;
  fa_title : option string;
  fa_type : string;
  fa_description : string;
  fa_keys : Json;
  fa_enabled : bool
}.

Record ToggleInput := mkToggleInput { ti_slug : string; ti_enabled : bool }.

Record SaveKeysInput := mkSaveKeysInput {
  sk_slug : string;
  sk_type : string;
  sk_keys : option Json
}.

(** What an identifier visible inside [toggle] is bound to. *)
Inductive Binding :=
  | BApp (app : string * AppRow)
  | BAppMetadata (m : option LocalApp)
  | BEventType (e : Prisma.EventTypeSel)
  | BUser (u : User)
  | BOther.

(** Names bound at module level by the imports and the export. *)
Definition moduleScope : list (string * Binding) :=
  map (fun x => (x, BOther))
    ["AppCategories"; "z"; "appKeysSchemas"; "getLocalAppMetadata"; "getAppName";
     "sendDisabledAppEmail"; "getEnabledApps"; "deriveAppDictKeyFromType";
     "getTranslation"; "TRPCError"; "router"; "authedProcedure"; "appsRouter"].

(** Bindings visible in the body of the callback over [eventTypesWithApp]. *)
Definition eventTypeScope (app : string * AppRow) (appMetadata : option LocalApp)
    (eventType : Prisma.EventTypeSel) : list (string * Binding) :=
  [("eventType", BEventType eventType); ("eventTypesWithApp", BOther);
   ("appMetadata", BAppMetadata appMetadata); ("localApps", BOther);
   ("app", BApp app); ("prisma", BOther); ("ctx", BOther); ("input", BOther)]
  ++ moduleScope.

(** [b.locale] and [b?.categories] on a binding. *)
Definition bindingLocale (b : Binding) : option string :=
  match b with BUser u => user_locale u | _ => None end.

Definition bindingCategories (b : Binding) : option (list string) :=
  match b with BAppMetadata (Some m) => Some (la_categories m) | _ => None end.

Section Router.

(** External collaborators of the router: the bundled catalogue returned by
    [getLocalAppMetadata()], the generated table [appKeysSchemas], the helper
    [deriveAppDictKeyFromType], the names of the enum [AppCategories], and
    the mail transport, which decides for the n-th send whether it fails. *)
Variable getLocalAppMetadata : list LocalApp.
Variable appKeysSchemas : gmap string Zod.ZodObject.
Variable deriveAppDictKeyFromType : string -> gmap string Zod.ZodObject -> string.
Variable isAppCategory : string -> bool.
Variable deliver : nat -> SendArgs -> bool.

Definition sendDisabledAppEmail (args : SendArgs) : M unit := fun st =>
  (logSend args st, if deliver (length (outbox st)) args then Ok tt else Err MailError).

(** *** listLocal *)

Definition resolveCategory (variant : string) : string :=
  if decide (variant = "conferencing") then "video" else variant.

(** The record pushed for one catalogue entry of the requested variant. *)
Definition filteredApp (dbApps : list (string * AppRow)) (app : LocalApp) : FilteredApp :=
  let dbData := List.find (fun dbApp => bool_decide (dbApp.1 = la_slug app)) dbApps in
  let enabled := match dbData with Some d => app_enabled d.2 | None => false end in
  if truthy (app_keys ∘ snd <$> dbData) then
    mkFilteredApp (la_name app) (la_slug app) (la_logo app) (la_title app) (la_type app)
      (la_description app)
      (match dbData with Some d => app_keys d.2 | None => JNull end)
      enabled
  else
    let appKey := deriveAppDictKeyFromType (la_type app) appKeysSchemas in
    let keysSchema := appKeysSchemas !! appKey in
    mkFilteredApp (la_name app) (la_slug app) (la_logo app) (la_title app) (la_type app)
      (la_description app)
      (match keysSchema with
       | Some schema => JArr (JStr <$> Zod.keyofValues schema)
       | None => JNull
       end)
      enabled.

(** The [for ... of] loop over the catalogue, pushing to [filteredApps]. *)
Fixpoint listLocalLoop (variant : string) (dbApps : list (string * AppRow))
    (localApps : list LocalApp) (filteredApps : list FilteredApp) : list FilteredApp :=
  match localApps with
  | [] => filteredApps
  | app :: rest =>
      if decide (la_variant app = variant)
      then listLocalLoop variant dbApps rest (filteredApps ++ [filteredApp dbApps app])
      else listLocalLoop variant dbApps rest filteredApps
  end.

Definition listLocal (ctx : Ctx) (variant : string) : M (list FilteredApp) :=
  if negb (isAdmin ctx) then throw (TRPCError UNAUTHORIZED)
  else
    let localApps := getLocalAppMetadata in
    dbApps ← Prisma.app_findMany_has isAppCategory (resolveCategory variant);
    mret (listLocalLoop variant dbApps localApps []).

(** *** toggle *)

Definition isCalendarOrVideo (categories : list string) : bool :=
  existsb (fun category => bool_decide (category = "calendar") || bool_decide (category = "video"))
    categories.

(** The callback mapped over [appCredentials] (lines 136-147). *)
Definition notifyCredential (app : string * AppRow) (appMetadata : option LocalApp)
    (credentialUser : option User) : M unit :=
  let t := getTranslation (orElseStr (credentialUser ≫= user_locale) "en") "common" in
  match credentialUser with
  | Some u =>
      if truthyStr (user_email u)
      then sendDisabledAppEmail
             (DisabledAppEmail (user_email u)
                (match appMetadata with
                 | Some m => if truthyStr (la_name m) then la_name m else app.1
                 | None => app.1
                 end)
                (app_categories app.2) t)
      else mret tt
  | None => mret tt
  end.

(** The [metadata] written back for an event type (lines 178-184): the
    three nested object spreads with the app's [enabled] set to [false]. *)
Definition disabledMetadata (slug : string) (metadata : Json) : Result Json :=
  match getProp (Some metadata) "apps" with
  | Err e => Err e
  | Ok appsV =>
      match getProp appsV slug with
      | Err e => Err e
      | Ok slot =>
          let inner := JObj (setField "enabled" (JBool false) (spread slot)) in
          let appsObj := JObj (setField slug inner (spread appsV)) in
          Ok (JObj (setField "apps" appsObj (spread (Some metadata))))
      end
  end.

(** The callback mapped over [eventType.users] (lines 190-199); the fourth
    argument of the call reads [appMetdata], a name bound nowhere. *)
Definition notifyEventTypeUser (scope : list (string * Binding))
    (appMetadata : option LocalApp) (eventType : Prisma.EventTypeSel) (t : TFunction)
    (user : User) : M unit :=
  appMetdata ← ident (("user", BUser user) :: scope) "appMetdata";
  sendDisabledAppEmail
    (DisabledAppEmailPositional (Prisma.sel_title eventType) (user_email user)
       (la_name <$> appMetadata) (bindingCategories appMetdata)
       (Prisma.sel_id eventType) t).

(** The callback mapped over [eventTypesWithApp] (lines 172-200): the row
    is written back, then [user.locale] is read on line 188, outside the
    callback that binds [user]. *)
Definition disableOnEventType (app : string * AppRow) (appMetadata : option LocalApp)
    (eventType : Prisma.EventTypeSel) : M unit :=
  let scope := eventTypeScope app appMetadata eventType in
  metadata ← liftR (disabledMetadata app.1 (Prisma.sel_metadata eventType));
  _ ← Prisma.eventType_update_metadata (Prisma.sel_id eventType) metadata;
  user ← ident scope "user";
  let t := getTranslation (orElseStr (bindingLocale user) "en") "common" in
  _ ← startAll (notifyEventTypeUser scope appMetadata eventType t <$> Prisma.sel_users eventType);
  mret tt.

(** The body of [if (input.enabled) { ... }]: alert the users of an app that
    is being disabled, by the categories of the app. *)
Definition alertUsers (app : string * AppRow) (appMetadata : option LocalApp) : M unit :=
  if isCalendarOrVideo (app_categories app.2) then
    appCredentials ← Prisma.credential_findMany app.1;
    ps ← startAll (notifyCredential app appMetadata <$> appCredentials);
    let _ := promiseAll ps in mret tt
  else
    eventTypesWithApp ← Prisma.eventType_findMany app.1;
    ps ← startAll (disableOnEventType app appMetadata <$> eventTypesWithApp);
    let _ := promiseAll ps in mret tt.

Definition toggle (ctx : Ctx) (input : ToggleInput) : M bool :=
  if negb (isAdmin ctx) then throw (TRPCError UNAUTHORIZED)
  else
    app ← Prisma.app_update_enabled (ti_slug input) (negb (ti_enabled input));
    let localApps := getLocalAppMetadata in
    let appMetadata := List.find (fun localApp => bool_decide (la_slug localApp = app.1)) localApps in
    _ ← (if ti_enabled input then alertUsers app appMetadata else mret tt);
    mret (app_enabled app.2).

(** *** saveKeys *)

Definition saveKeys (ctx : Ctx) (input : SaveKeysInput) : M unit :=
  if negb (isAdmin ctx) then throw (TRPCError UNAUTHORIZED)
  else
    let appKey := deriveAppDictKeyFromType (sk_type input) appKeysSchemas in
    match appKeysSchemas !! appKey with
    | None => throw (TypeError "parse")
    | Some keysSchema =>
        parse ← liftR (Zod.parse keysSchema (sk_keys input));
        _ ← Prisma.app_update_keys (sk_slug input) (sk_keys input);
        mret tt
    end.

End Router.

(** ** The availability page *)

Section AvailabilityPage.

(** [stringOrNumber] is imported from [@calcom/prisma/zod-utils]. *)
Variable stringOrNumber : Zod.ZodType.

Definition querySchema : Zod.ZodObject :=
  Zod.mkZodObject [("schedule", stringOrNumber)] Zod.strip.

(** What the build step hands to the framework: [{ notFound: true }], or the
    props the page component is rendered with and the revalidation period. *)
Inductive StaticPropsResult :=
  | NotFound
  | Props (schedule : option Json) (revalidate : nat).

Definition getStaticProps (ctxParams : option Json) : StaticPropsResult :=
  match Zod.safeParse querySchema ctxParams with
  | Err _ => NotFound
  | Ok data => Props (Js.assoc "schedule" (spread (Some data))) 10
  end.

(** The page component [Availability] is rendered only from props. *)
Definition rendersForm (r : StaticPropsResult) : bool :=
  match r with NotFound => false | Props _ _ => true end.

End AvailabilityPage.

(** *** The event type filter and the week start of the page

    [ActiveOnEventTypeSelect] folds the groups of [viewer.eventTypes] into
    the labelled lists of its menu (lines 74-87); [Availability] turns the
    user's week start into the index handed to [Schedule] (lines 243-252). *)

Record TeamSel := mkTeam { team_name : option string }.

Record MemberSel := mkMember { member_name : option string }.

Record EventTypeItem := mkItem {
  item_title : string;
  item_team : option TeamSel;
  item_users : list MemberSel
}.

Record EventTypeGroup := mkGroup { group_eventTypes : list EventTypeItem }.

Record GroupView := mkView { groupName : string; eventTypeNames : list string }.

(** The entry pushed for one group: reading [eventTypes[0].team] of a group
    without event types, or [users[0].name] of a first event type without
    users, throws. *)
Definition groupView (g : EventTypeGroup) : Result GroupView :=
  match group_eventTypes g with
  | [] => Err (TypeError "team")
  | first :: _ =>
      let eventTypeNames := item_title <$> group_eventTypes g in
      match item_team first with
      | Some team => Ok (mkView (orElseStr (team_name team) "") eventTypeNames)
      | None =>
          match item_users first with
          | [] => Err (TypeError "name")
          | user :: _ => Ok (mkView (orElseStr (member_name user) "") eventTypeNames)
          end
      end
  end.

(** [groups.reduce((aggregate, group) => { aggregate.push(...); return
    aggregate; }, [])]. *)
Fixpoint groupsReduce (groups : list EventTypeGroup) (aggregate : list GroupView)
  : Result (list GroupView) :=
  match groups with
  | [] => Ok aggregate
  | g :: rest =>
      match groupView g with
      | Ok v => groupsReduce rest (aggregate ++ [v])
      | Err e => Err e
      end
  end.

(** [data?.eventTypeGroups.reduce(...)]: [undefined] while the query has no
    data. *)
Definition eventTypeGroups (data : option (list EventTypeGroup))
  : Result (option (list GroupView)) :=
  match data with
  | None => Ok None
  | Some groups =>
      match groupsReduce groups [] with
      | Ok views => Ok (Some views)
      | Err e => Err e
      end
  end.

(** [xs.indexOf(x)]. *)
Fixpoint indexOfFrom (i : Z) (l : list string) (x : string) : Z :=
  match l with
  | [] => (-1)%Z
  | y :: l' => if decide (y = x) then i else indexOfFrom (i + 1)%Z l' x
  end.

Definition indexOf (l : list string) (x : string) : Z := indexOfFrom 0 l x.

Definition weekDays : list string :=
  ["Sunday"; "Monday"; "Tuesday"; "Wednesday"; "Thursday"; "Friday"; "Saturday"].

(** The [weekStart] prop of [Schedule]; the grid is rendered only when
    [me.data?.weekStart] is a string. *)
Definition scheduleWeekStart (weekStart : option string) : option Z :=
  match weekStart with
  | Some day => Some (indexOf weekDays day)
  | None => None
  end.

(** ** Sample data

    A small catalogue, schema table and store on which the statements below
    are exercised. *)

Module Sample.

(** [z.string()]. *)
Definition zString : Zod.ZodType := fun v =>
  match v with
  | Some (JStr s) => inr (Some (JStr s))
  | _ => inl [mkIssue "invalid_type" []]
  end.

Definition digitValue (c : Ascii.ascii) : option Z :=
  let n := Z.of_nat (Ascii.nat_of_ascii c) in
  if ((48 <=? n) && (n <=? 57))%Z then Some (n - 48)%Z else None.

Fixpoint decimal (acc : Z) (s : string) : option Z :=
  match s with
  | EmptyString => Some acc
  | String c s' => digitValue c ≫= fun d => decimal (10 * acc + d) s'
  end.

(** Modelled from the spec: [stringOrNumber] of [@calcom/prisma/zod-utils]
    is not part of these files; the route parameter is a numeric or
    numeric-string id, and the parsed value is the number. *)
Definition stringOrNumber : Zod.ZodType := fun v =>
  match v with
  | Some (JNum n) => inr (Some (JNum n))
  | Some (JStr (String c s)) =>
      match decimal 0 (String c s) with
      | Some n => inr (Some (JNum n))
      | None => inl [mkIssue "invalid_union" []]
      end
  | _ => inl [mkIssue "invalid_union" []]
  end.

Definition catalogue : list LocalApp :=
  [ mkLocalApp "Stripe" "stripe" "/api/app-store/stripepayment/icon.svg" (Some "Stripe")
      "stripe_payment" "Collect payments" "payment" ["payment"];
    mkLocalApp "Google Calendar" "google-calendar" "/api/app-store/googlecalendar/icon.svg"
      (Some "Google Calendar") "google_calendar" "Calendars" "calendar" ["calendar"];
    mkLocalApp "Giphy" "giphy" "/api/app-store/giphy/icon.svg" None
      "giphy_other" "Gifs" "other" ["other"] ].

Definition stripeKeys : Zod.ZodObject :=
  Zod.mkZodObject [("client_id", zString); ("client_secret", zString)] Zod.strip.

Definition schemas : gmap string Zod.ZodObject := {[ "stripe_payment" := stripeKeys ]}.

(** A stand-in for [deriveAppDictKeyFromType], which is not part of these
    files: the key is the type itself, as for a table that has an entry
    under the type. *)
Definition deriveKey (type : string) (dict : gmap string Zod.ZodObject) : string := type.

Definition isAppCategory (c : string) : bool :=
  bool_decide (c ∈ ["calendar"; "messaging"; "other"; "payment"; "video"; "web3"]).

Definition deliverAll (n : nat) (a : SendArgs) : bool := true.
Definition deliverNone (n : nat) (a : SendArgs) : bool := false.

Definition admin : Ctx := mkCtx ADMIN.
Definition member : Ctx := mkCtx USER.

Definition alice : User := mkUser "alice@example.com" (Some "fr").
Definition bob : User := mkUser "bob@example.com" None.

Definition storedStripeKeys : Json :=
  JObj [("client_id", JStr "ca_123"); ("client_secret", JStr "sk_456")].

Definition paidMetadata : Json :=
  JObj [("apps", JObj [("stripe", JObj [("enabled", JBool true); ("price", JNum 500)])])].

Definition store : Store :=
  mkStore
    {[ "stripe" := mkApp ["payment"] JNull true;
       "google-calendar" := mkApp ["calendar"] JNull true ]}
    {[ 1 := alice; 2 := bob ]}
    [ mkCredential (Some "google-calendar") (Some 1);
      mkCredential (Some "google-calendar") (Some 1);
      mkCredential (Some "stripe") (Some 2) ]
    {[ 7 := mkEventType "Paid call" [1; 2] paidMetadata ]}
    [].

(** A payload the Stripe schema rejects, and one it accepts with a key of
    its own that parsing strips. *)
Definition badKeys : Json := JObj [("client_id", JNum 5)].

Definition richKeys : Json :=
  JObj [("client_id", JStr "ca_1"); ("client_secret", JStr "sk_1"); ("note", JStr "rotate")].

(** The same store with the Stripe row filed under another category and
    holding keys. *)
Definition storeMisfiled : Store :=
  setApps <[ "stripe" := mkApp ["other"] storedStripeKeys true ]> store.

(** The same store with the Stripe keys saved. *)
Definition storeWithKeys : Store :=
  setApps <[ "stripe" := mkApp ["payment"] storedStripeKeys true ]> store.

(** The catalogue entry of Stripe, and the event type row of the store. *)
Definition stripeApp : LocalApp :=
  mkLocalApp "Stripe" "stripe" "/api/app-store/stripepayment/icon.svg" (Some "Stripe")
    "stripe_payment" "Collect payments" "payment" ["payment"].

Definition paidCall : EventType := mkEventType "Paid call" [1; 2] paidMetadata.

(** Inputs that name no app row, and a type without a schema. *)
Definition disableZoom : ToggleInput := mkToggleInput "zoom" true.
Definition saveGiphy : SaveKeysInput := mkSaveKeysInput "giphy" "giphy_other" (Some richKeys).
Definition savePaypal : SaveKeysInput := mkSaveKeysInput "paypal" "stripe_payment" (Some richKeys).

(** Groups of the event type query: a team's, a user's whose name is not
    set, and an empty one. *)
Definition teamGroup : EventTypeGroup :=
  mkGroup [ mkItem "Demo" (Some (mkTeam (Some "Sales"))) [];
            mkItem "Follow-up" None [mkMember (Some "Bob")] ].

Definition userGroup : EventTypeGroup :=
  mkGroup [ mkItem "30 min" None [mkMember None; mkMember (Some "Alice")] ].

Definition emptyGroup : EventTypeGroup := mkGroup [].

Definition disableStripe : ToggleInput := mkToggleInput "stripe" true.
Definition disableCalendar : ToggleInput := mkToggleInput "google-calendar" true.
Definition enableStripe : ToggleInput := mkToggleInput "stripe" false.

Definition saveBad : SaveKeysInput := mkSaveKeysInput "stripe" "stripe_payment" (Some badKeys).
Definition saveRich : SaveKeysInput := mkSaveKeysInput "stripe" "stripe_payment" (Some richKeys).

End Sample.

(** ** Notions used in the statements *)

(** The stored row a [listLocal] call for [variant] sees for [slug]: the
    query keeps the rows whose categories have the resolved category. *)
Definition visibleRow (st : Store) (variant slug : string) : option AppRow :=
  match apps st !! slug with
  | Some row =>
      if bool_decide (resolveCategory variant ∈ app_categories row) then Some row else None
  | None => None
  end.

(** The value [listLocal] emits in place of keys that are not stored: the
    key names of the app's schema, or [null] without a schema. *)
Definition keyNames (appKeysSchemas : gmap string Zod.ZodObject)
    (deriveAppDictKeyFromType : string -> gmap string Zod.ZodObject -> string)
    (app : LocalApp) : Json :=
  match appKeysSchemas !! deriveAppDictKeyFromType (la_type app) appKeysSchemas with
  | Some schema => JArr (JStr <$> Zod.keyofValues schema)
  | None => JNull
  end.

(** The credential rows of an app, and the distinct users among them. *)
Definition credentialsOf (st : Store) (slug : string) : list Credential :=
  filter (fun c => bool_decide (cred_appId c = Some slug)) (credentials st).

Definition credentialedUsers (st : Store) (slug : string) : list nat :=
  remove_dups (omap cred_userId (credentialsOf st slug)).

(** The notice sent for one credential row of a calendar or video app, if
    any: the row must be linked to a user with a non-empty e-mail address. *)
Definition noticeFor (getLocalAppMetadata : list LocalApp) (slug : string) (row : AppRow)
    (credentialUser : option User) : option SendArgs :=
  match credentialUser with
  | Some u =>
      if truthyStr (user_email u) then
        Some (DisabledAppEmail (user_email u)
                (match List.find (fun localApp => bool_decide (la_slug localApp = slug))
                         getLocalAppMetadata with
                 | Some m => if truthyStr (la_name m) then la_name m else slug
                 | None => slug
                 end)
                (app_categories row)
                (getTranslation (orElseStr (user_locale u) "en") "common"))
      else None
  | None => None
  end.

(** The app row as [toggle] leaves it. *)
Definition toggledRow (row : AppRow) (input : ToggleInput) : AppRow :=
  mkApp (app_categories row) (app_keys row) (negb (ti_enabled input)).

(** An event type row with the app switched off in its metadata. *)
Definition disabledRow (slug : string) (e : EventType) : EventType :=
  match disabledMetadata slug (et_metadata e) with
  | Ok metadata => mkEventType (et_title e) (et_users e) metadata
  | Err _ => e
  end.

(** tRPC's HTTP status for the error codes used here. *)
Definition httpStatus (code : TRPCCode) : nat :=
  match code with
  | UNAUTHORIZED => 401
  | INTERNAL_SERVER_ERROR => 500
  end.

(** What disabling an app of the other kind does to one event type row. *)
Definition disableIn (slug : string) (e : EventType) : EventType :=
  if Prisma.marksEnabled slug e then disabledRow slug e else e.

(** A procedure changes nothing outside the outbox. *)
Definition sameTables (st st' : Store) : Prop :=
  apps st' = apps st ∧ users st' = users st ∧ credentials st' = credentials st
  ∧ eventTypes st' = eventTypes st.

(** ** Proofs *)

Ltac unfoldM := unfold mbind, M_bind, mret, M_ret, throw, liftR, start in *.

Section RouterFacts.

Variable getLocalAppMetadata : list LocalApp.
Variable appKeysSchemas : gmap string Zod.ZodObject.
Variable deriveAppDictKeyFromType : string -> gmap string Zod.ZodObject -> string.
Variable isAppCategory : string -> bool.
Variable deliver : nat -> SendArgs -> bool.

Local Abbreviation listLocal' := (listLocal getLocalAppMetadata appKeysSchemas deriveAppDictKeyFromType isAppCategory).
Local Abbreviation toggle' := (toggle getLocalAppMetadata deliver).
Local Abbreviation saveKeys' := (saveKeys appKeysSchemas deriveAppDictKeyFromType).

Lemma not_admin ctx : session_user_role ctx ≠ ADMIN → isAdmin ctx = false.
Proof. unfold isAdmin. by destruct (session_user_role ctx). Qed.

(** C5: a session whose role is not ADMIN gets the UNAUTHORIZED error, of
    HTTP status 401, from listLocal, toggle and saveKeys alike, and the
    store is left exactly as it was. *)
Theorem non_admin_is_unauthorized (ctx : Ctx) (st : Store) :
  session_user_role ctx ≠ ADMIN →
  (∀ variant, listLocal' ctx variant st = (st, Err (TRPCError UNAUTHORIZED)))
  ∧ (∀ input, toggle' ctx input st = (st, Err (TRPCError UNAUTHORIZED)))
  ∧ (∀ input, saveKeys' ctx input st = (st, Err (TRPCError UNAUTHORIZED)))
  ∧ httpStatus UNAUTHORIZED = 401.
Proof.
  intros Hrole. apply not_admin in Hrole.
  unfold listLocal, toggle, saveKeys.
  rewrite Hrole. simpl. by repeat split.
Qed.

(** *** Detached promises *)

Lemma startAll_cons {A} (task : M A) rest st :
  startAll (task :: rest) st =
  let st1 := (task st).1 in
  ((startAll rest st1).1,
   match (startAll rest st1).2 with
   | Ok rs => Ok ((task st).2 :: rs)
   | Err e => Err e
   end).
Proof.
  simpl. unfoldM. destruct (task st) as [st1 r]. simpl.
  by destruct (startAll rest st1) as [st2 [rs|e]].
Qed.

(** Starting promises never throws in the caller, whatever they do. *)
Lemma startAll_never_throws {A} (tasks : list (M A)) st :
  ∃ rs, (startAll tasks st).2 = Ok rs.
Proof.
  revert st. induction tasks as [|task rest IH]; intros st; [by eexists|].
  rewrite startAll_cons. simpl.
  destruct (IH (task st).1) as [rs ->]. by eexists.
Qed.

(** A relation between stores that every task respects is respected by
    the whole batch. *)
Lemma startAll_preserves {A} (R : Store → Store → Prop) (tasks : list (M A)) :
  (∀ st, R st st) →
  (∀ a b c, R a b → R b c → R a c) →
  (∀ task st, task ∈ tasks → R st (task st).1) →
  ∀ st, R st (startAll tasks st).1.
Proof.
  intros Hrefl Htrans. induction tasks as [|task rest IH]; intros Htask st.
  - apply Hrefl.
  - rewrite startAll_cons. simpl.
    eapply Htrans; [apply Htask; left|].
    apply IH. intros t' st' Hin. apply Htask. by right.
Qed.

Lemma sendDisabledAppEmail_store args st :
  (sendDisabledAppEmail deliver args st).1 = logSend args st.
Proof. reflexivity. Qed.

(** *** The calendar and video branch *)

Lemma notifyCredential_store slug row u st :
  (notifyCredential deliver (slug, row) (List.find (fun localApp => bool_decide (la_slug localApp = slug)) getLocalAppMetadata) u st).1 =
  match noticeFor getLocalAppMetadata slug row u with
  | Some a => logSend a st
  | None => st
  end.
Proof.
  unfold notifyCredential, noticeFor. destruct u as [u|]; [|done]. simpl.
  by destruct (truthyStr (user_email u)).
Qed.

Lemma logSend_outbox a st : outbox (logSend a st) = outbox st ++ [a].
Proof. reflexivity. Qed.

Lemma startAll_notifyCredential slug row us st :
  let st' := (startAll (notifyCredential deliver (slug, row)
                          (List.find (fun localApp => bool_decide (la_slug localApp = slug)) getLocalAppMetadata)
                        <$> us) st).1 in
  sameTables st st'
  ∧ outbox st' = outbox st ++ omap (noticeFor getLocalAppMetadata slug row) us.
Proof.
  revert st. induction us as [|u us IH]; intros st.
  - simpl. unfold sameTables. by rewrite app_nil_r.
  - rewrite fmap_cons, startAll_cons. cbn [fst omap list_omap]. rewrite notifyCredential_store.
    destruct (noticeFor getLocalAppMetadata slug row u) as [a|].
    + destruct (IH (logSend a st)) as [(?&?&?&?) Hout]. simpl in *.
      split; [by repeat split|]. rewrite Hout. simpl. by rewrite <- app_assoc.
    + apply IH.
Qed.

(** *** The branch of the other apps *)

Lemma user_unbound app appMetadata eventType :
  assoc "user" (eventTypeScope app appMetadata eventType) = None.
Proof. reflexivity. Qed.

(** The callback over an event type stops at the unbound [user]: whatever
    it did to the event type row, it reaches no send. *)
Lemma disableOnEventType_store app appMetadata eventType st :
  let st' := (disableOnEventType deliver app appMetadata eventType st).1 in
  apps st' = apps st ∧ users st' = users st ∧ credentials st' = credentials st
  ∧ outbox st' = outbox st.
Proof.
  unfold disableOnEventType. unfoldM.
  destruct (disabledMetadata app.1 (Prisma.sel_metadata eventType)) as [md|e]; [|done].
  unfold Prisma.eventType_update_metadata.
  destruct (eventTypes st !! Prisma.sel_id eventType) as [e|]; [|done].
  unfold ident. by rewrite user_unbound.
Qed.

Lemma startAll_disableOnEventType app appMetadata es st :
  let st' := (startAll (disableOnEventType deliver app appMetadata <$> es) st).1 in
  apps st' = apps st ∧ users st' = users st ∧ credentials st' = credentials st
  ∧ outbox st' = outbox st.
Proof.
  apply (startAll_preserves
           (fun a b => apps b = apps a ∧ users b = users a ∧ credentials b = credentials a
                       ∧ outbox b = outbox a)).
  - done.
  - intros a b c (?&?&?&?) (?&?&?&?). repeat split; congruence.
  - intros task st0 Hin. apply list_elem_of_fmap in Hin as (e & -> & _).
    apply disableOnEventType_store.
Qed.

Lemma assoc_setField {A} (k : string) (v : A) l : assoc k (setField k v l) = Some v.
Proof.
  induction l as [|[k' v'] l IH]; simpl.
  - by rewrite decide_True.
  - destruct (decide (k' = k)) as [->|Hne]; simpl.
    + by rewrite decide_True.
    + by rewrite decide_False.
Qed.

(** On a row that marks the app enabled the three spreads succeed, and the
    result marks it disabled. *)
Lemma disabledMetadata_marked slug e :
  Prisma.marksEnabled slug e = true →
  ∃ metadata,
    disabledMetadata slug (et_metadata e) = Ok metadata
    ∧ Prisma.getPath ["apps"; slug; "enabled"] metadata = Some (JBool false).
Proof.
  unfold Prisma.marksEnabled, disabledMetadata. simpl.
  destruct (et_metadata e) as [| | | | |fields]; try done. simpl.
  destruct (assoc "apps" fields) as [[| | | | |afields]|]; try done. simpl.
  destruct (assoc slug afields) as [slot|]; try done. simpl.
  intros _. eexists. split; [done|].
  simpl. by repeat (rewrite assoc_setField; simpl).
Qed.

Lemma disableOnEventType_eventTypes app appMetadata st0 id e st :
  eventTypes st !! id = Some e →
  eventTypes (disableOnEventType deliver app appMetadata (Prisma.selectEventType st0 (id, e)) st).1
  = match disabledMetadata app.1 (et_metadata e) with
    | Ok _ => <[id := disabledRow app.1 e]> (eventTypes st)
    | Err _ => eventTypes st
    end.
Proof.
  intros Hrow. unfold disableOnEventType, disabledRow. unfoldM.
  cbn [Prisma.sel_metadata Prisma.sel_id Prisma.selectEventType fst snd].
  destruct (disabledMetadata app.1 (et_metadata e)) as [md|err]; [|done].
  unfold Prisma.eventType_update_metadata. rewrite Hrow.
  unfold ident. by rewrite user_unbound.
Qed.

Lemma NoDup_fst_filter {K A} (P : K * A → Prop) `{∀ x, Decision (P x)} (l : list (K * A)) :
  NoDup l.*1 → NoDup (filter P l).*1.
Proof.
  induction l as [|[k v] l IH]; [done|].
  rewrite fmap_cons, NoDup_cons. intros [Hk Hl]. rewrite filter_cons.
  destruct (decide (P (k, v))); [|by apply IH].
  rewrite fmap_cons, NoDup_cons. split; [|by apply IH].
  intros Hin. apply Hk. apply list_elem_of_fmap in Hin as ([k' v'] & -> & Hin).
  apply list_elem_of_filter in Hin as [_ Hin].
  apply list_elem_of_fmap. by exists (k', v').
Qed.

(** The callbacks over a batch of distinct rows, each marking the app
    enabled, switch the app off in every row of the batch and leave the
    other rows alone. *)
Lemma startAll_disableOnEventType_rows app appMetadata st0 (rows : list (nat * EventType)) st :
  NoDup rows.*1 →
  (∀ id e, (id, e) ∈ rows → eventTypes st !! id = Some e ∧ Prisma.marksEnabled app.1 e = true) →
  let st' := (startAll (disableOnEventType deliver app appMetadata
                        <$> (Prisma.selectEventType st0 <$> rows)) st).1 in
  (∀ id e, (id, e) ∈ rows → eventTypes st' !! id = Some (disabledRow app.1 e))
  ∧ (∀ id, id ∉ rows.*1 → eventTypes st' !! id = eventTypes st !! id).
Proof.
  revert st. induction rows as [|[id e] rows IH]; intros st Hnd Hrows; cbv zeta.
  { split; [|done]. intros ?? Hin. by apply elem_of_nil in Hin. }
  rewrite !fmap_cons, startAll_cons. cbn [fst].
  apply NoDup_cons in Hnd as [Hid Hnd]. cbn [fst] in Hid.
  destruct (Hrows id e) as [Hrow Hmarked]; [left|].
  set (st1 := (disableOnEventType deliver app appMetadata _ st).1).
  assert (eventTypes st1 = <[id := disabledRow app.1 e]> (eventTypes st)) as Hst1.
  { subst st1. rewrite (disableOnEventType_eventTypes _ _ _ _ _ _ Hrow).
    by destruct (disabledMetadata_marked _ _ Hmarked) as (md & -> & _). }
  destruct (IH st1 Hnd) as [Hin Hout].
  { intros id' e' Hin'. destruct (Hrows id' e') as [Hrow' Hmarked']; [by right|].
    split; [|done]. rewrite Hst1, lookup_insert_ne; [done|].
    intros ->. apply Hid. apply list_elem_of_fmap. by exists (id', e'). }
  split.
  - intros id' e' [[= -> ->]|Hin']%elem_of_cons; [|by apply Hin].
    rewrite (Hout _ Hid), Hst1. by rewrite lookup_insert_eq.
  - intros id' [Hne Hnotin]%not_elem_of_cons.
    rewrite (Hout _ Hnotin), Hst1. by rewrite lookup_insert_ne.
Qed.

(** *** toggle, step by step *)

Lemma bind_run {A B} (m : M A) (k : A → M B) st :
  (m ≫= k) st =
  match (m st).2 with
  | Ok a => k a (m st).1
  | Err e => ((m st).1, Err e)
  end.
Proof. unfoldM. by destruct (m st) as [st' [a|e]]. Qed.

Lemma alertUsers_calendar slug row st :
  isCalendarOrVideo (app_categories row) = true →
  let appMetadata := List.find (fun localApp => bool_decide (la_slug localApp = slug)) getLocalAppMetadata in
  let st' := (alertUsers deliver (slug, row) appMetadata st).1 in
  (alertUsers deliver (slug, row) appMetadata st).2 = Ok tt
  ∧ sameTables st st'
  ∧ outbox st' = outbox st
      ++ omap (noticeFor getLocalAppMetadata slug row) (Prisma.cred_user st <$> credentialsOf st slug).
Proof.
  intros Hcat. cbv zeta. unfold alertUsers. cbn [snd fst]. rewrite Hcat.
  rewrite bind_run. cbn [Prisma.credential_findMany snd fst].
  rewrite bind_run.
  match goal with |- context [startAll ?ts ?s] =>
    destruct (startAll_never_throws ts s) as [rs Hrs]
  end.
  rewrite Hrs. cbn [mret M_ret snd fst].
  split; [done|]. apply startAll_notifyCredential.
Qed.

Lemma alertUsers_other app appMetadata st :
  isCalendarOrVideo (app_categories app.2) = false →
  let st' := (alertUsers deliver app appMetadata st).1 in
  (alertUsers deliver app appMetadata st).2 = Ok tt
  ∧ apps st' = apps st ∧ users st' = users st ∧ credentials st' = credentials st
  ∧ outbox st' = outbox st.
Proof.
  intros Hcat. cbv zeta. unfold alertUsers. rewrite Hcat.
  rewrite bind_run. cbn [Prisma.eventType_findMany snd fst].
  rewrite bind_run.
  match goal with |- context [startAll ?ts ?s] =>
    destruct (startAll_never_throws ts s) as [rs Hrs]
  end.
  rewrite Hrs. cbn [mret M_ret snd fst].
  split; [done|]. apply startAll_disableOnEventType.
Qed.

Lemma toggle_run ctx input st row :
  isAdmin ctx = true →
  apps st !! ti_slug input = Some row →
  let row' := toggledRow row input in
  let st1 := setApps <[ti_slug input := row']> st in
  let appMetadata :=
    List.find (fun localApp => bool_decide (la_slug localApp = ti_slug input)) getLocalAppMetadata in
  toggle' ctx input st =
  if ti_enabled input
  then ((alertUsers deliver (ti_slug input, row') appMetadata st1).1,
        match (alertUsers deliver (ti_slug input, row') appMetadata st1).2 with
        | Ok _ => Ok (negb (ti_enabled input))
        | Err e => Err e
        end)
  else (st1, Ok (negb (ti_enabled input))).
Proof.
  intros Hadmin Hrow. cbv zeta. unfold toggle. rewrite Hadmin. cbn [negb].
  rewrite bind_run. unfold Prisma.app_update_enabled at 1 2 3. rewrite Hrow.
  cbn [snd fst]. unfold toggledRow.
  destruct input as [slug []]; cbn [ti_enabled ti_slug negb] in *; [|done].
  rewrite bind_run.
  by destruct (alertUsers _ _ _ _) as [st2 [[]|e]].
Qed.

Lemma is_admin ctx : session_user_role ctx = ADMIN → isAdmin ctx = true.
Proof. unfold isAdmin. by intros ->. Qed.

(** C1: for an admin and an existing app row, whatever its enabled flag
    was, toggle leaves the row with enabled = !input.enabled and returns
    the flag of the row after the update, which is that same value. *)
Theorem toggle_stores_negation (ctx : Ctx) (input : ToggleInput) (st : Store) (row : AppRow) :
  session_user_role ctx = ADMIN →
  apps st !! ti_slug input = Some row →
  ∃ row',
    apps (toggle' ctx input st).1 !! ti_slug input = Some row'
    ∧ app_enabled row' = negb (ti_enabled input)
    ∧ app_categories row' = app_categories row
    ∧ app_keys row' = app_keys row
    ∧ (toggle' ctx input st).2 = Ok (app_enabled row').
Proof.
  intros Hadmin%is_admin Hrow. exists (toggledRow row input).
  rewrite (toggle_run _ _ _ _ Hadmin Hrow). cbv zeta.
  destruct (ti_enabled input) eqn:Hen; cbn [fst snd].
  - set (appMetadata := List.find _ _).
    set (st1 := setApps _ st).
    assert (apps (alertUsers deliver (ti_slug input, toggledRow row input) appMetadata st1).1
            = apps st1
            ∧ (alertUsers deliver (ti_slug input, toggledRow row input) appMetadata st1).2 = Ok tt)
      as [Happs Hres].
    { destruct (isCalendarOrVideo (app_categories row)) eqn:Hcat.
      - destruct (alertUsers_calendar (ti_slug input) (toggledRow row input) st1 Hcat)
          as (? & (? & _) & _). done.
      - destruct (alertUsers_other (ti_slug input, toggledRow row input) appMetadata st1 Hcat)
          as (? & ? & _). done. }
    rewrite Happs, Hres. subst st1. simpl. rewrite lookup_insert_eq, Hen. done.
  - simpl. rewrite lookup_insert_eq, Hen. done.
Qed.

(** C8: an admin call with input.enabled = false sends no e-mail and leaves
    event types, users and credentials as they were; the app table changes
    only in the enabled flag of the addressed row (and not at all when
    there is no such row). *)
Theorem toggle_enabling_only_sets_flag (ctx : Ctx) (input : ToggleInput) (st : Store) :
  session_user_role ctx = ADMIN →
  ti_enabled input = false →
  let st' := (toggle' ctx input st).1 in
  outbox st' = outbox st
  ∧ eventTypes st' = eventTypes st
  ∧ users st' = users st
  ∧ credentials st' = credentials st
  ∧ apps st' =
      match apps st !! ti_slug input with
      | Some row => <[ti_slug input := mkApp (app_categories row) (app_keys row) true]> (apps st)
      | None => apps st
      end.
Proof.
  intros Hadmin%is_admin Hen. cbv zeta.
  destruct (apps st !! ti_slug input) as [row|] eqn:Hrow.
  - rewrite (toggle_run _ _ _ _ Hadmin Hrow). cbv zeta. rewrite Hen.
    unfold toggledRow. rewrite Hen. done.
  - unfold toggle. rewrite Hadmin. cbn [negb]. rewrite bind_run.
    unfold Prisma.app_update_enabled. rewrite Hrow. done.
Qed.

(** C6 (amended): disabling a calendar or video app as an admin returns
    false and logs exactly one send per credential row of the app whose
    user exists and has a non-empty e-mail address, in the order of the
    rows; a user holding several credentials is notified once per
    credential.  The statement holds for every mail transport, so neither
    the sends that follow a failed one nor the returned value nor the
    tables depend on which sends fail. *)
Theorem toggle_calendar_notifies_per_credential
    (ctx : Ctx) (input : ToggleInput) (st : Store) (row : AppRow) :
  session_user_role ctx = ADMIN →
  ti_enabled input = true →
  apps st !! ti_slug input = Some row →
  isCalendarOrVideo (app_categories row) = true →
  let st' := (toggle' ctx input st).1 in
  (toggle' ctx input st).2 = Ok false
  ∧ outbox st' =
      outbox st ++ omap (noticeFor getLocalAppMetadata (ti_slug input) (toggledRow row input))
                     (Prisma.cred_user st <$> credentialsOf st (ti_slug input))
  ∧ apps st' = <[ti_slug input := toggledRow row input]> (apps st)
  ∧ users st' = users st
  ∧ credentials st' = credentials st
  ∧ eventTypes st' = eventTypes st.
Proof.
  intros Hadmin%is_admin Hen Hrow Hcat. cbv zeta.
  rewrite (toggle_run _ _ _ _ Hadmin Hrow). cbv zeta. rewrite Hen. cbn [fst snd].
  destruct (alertUsers_calendar (ti_slug input) (toggledRow row input)
              (setApps <[ti_slug input := toggledRow row input]> st) Hcat)
    as (Hres & (Happs & Husers & Hcreds & Hets) & Hout).
  rewrite Hres, Hout, Happs, Husers, Hcreds, Hets. done.
Qed.

(** Disabling an app of the other kind switches it off in the metadata of
    every event type that marks it enabled, and changes no other event
    type. *)
Lemma toggle_other_disables_marked_rows ctx input st row :
  isAdmin ctx = true →
  ti_enabled input = true →
  apps st !! ti_slug input = Some row →
  isCalendarOrVideo (app_categories row) = false →
  ∀ id e, eventTypes st !! id = Some e →
    eventTypes (toggle' ctx input st).1 !! id =
      Some (if Prisma.marksEnabled (ti_slug input) e then disabledRow (ti_slug input) e else e).
Proof.
  intros Hadmin Hen Hrow Hcat id e He.
  rewrite (toggle_run _ _ _ _ Hadmin Hrow). cbv zeta. rewrite Hen. cbn [fst].
  unfold alertUsers. cbn [fst snd toggledRow app_categories]. rewrite Hcat.
  rewrite bind_run. cbn [Prisma.eventType_findMany snd fst]. rewrite bind_run.
  match goal with |- context [startAll ?ts ?s] =>
    destruct (startAll_never_throws ts s) as [rs Hrs]
  end.
  rewrite Hrs. cbn [mret M_ret snd fst].
  set (st1 := setApps _ st).
  set (rows := filter (fun r : nat * EventType => Prisma.marksEnabled (ti_slug input) r.2)
                 (map_to_list (eventTypes st1))).
  destruct (startAll_disableOnEventType_rows
              (ti_slug input, toggledRow row input)
              (List.find (fun localApp => bool_decide (la_slug localApp = ti_slug input))
                 getLocalAppMetadata)
              st1 rows st1) as [Hin Hout].
  { apply NoDup_fst_filter, NoDup_fst_map_to_list. }
  { intros id' e' [Hm Hel]%list_elem_of_filter. apply elem_of_map_to_list in Hel.
    split; [done|]. by apply Is_true_true. }
  cbn [fst] in Hin, Hout. unfold toggledRow in Hin, Hout. rewrite Hen in Hin, Hout.
  destruct (Prisma.marksEnabled (ti_slug input) e) eqn:Hmarked.
  - apply Hin. apply list_elem_of_filter. split.
    + simpl. by apply Is_true_true.
    + by apply elem_of_map_to_list.
  - rewrite Hout; [done|].
    intros ([id' e'] & Heq & [Hm Hel]%list_elem_of_filter)%list_elem_of_fmap.
    simpl in Heq. subst id'. apply elem_of_map_to_list in Hel.
    change (eventTypes st1) with (eventTypes st) in Hel.
    rewrite He in Hel. injection Hel as <-. simpl in Hm.
    apply Is_true_true in Hm. congruence.
Qed.

(** *** listLocal *)

Lemma listLocalLoop_spec variant dbApps localApps acc :
  listLocalLoop appKeysSchemas deriveAppDictKeyFromType variant dbApps localApps acc =
  acc ++ (filteredApp appKeysSchemas deriveAppDictKeyFromType dbApps
            <$> filter (fun app => la_variant app = variant) localApps).
Proof.
  revert acc. induction localApps as [|app rest IH]; intros acc; simpl.
  - by rewrite app_nil_r.
  - rewrite filter_cons. destruct (decide (la_variant app = variant)).
    + rewrite IH, <- app_assoc. done.
    + apply IH.
Qed.

(** [dbApps.find] by slug on the rows of one category: the row of that
    slug, when its categories have the category. *)
Lemma find_dbApp (m : gmap string AppRow) (c slug : string) :
  List.find (fun dbApp : string * AppRow => bool_decide (dbApp.1 = slug))
    (filter (fun r : string * AppRow => bool_decide (c ∈ app_categories r.2)) (map_to_list m))
  = match m !! slug with
    | Some row => if bool_decide (c ∈ app_categories row) then Some (slug, row) else None
    | None => None
    end.
Proof.
  destruct (List.find _ _) as [[k v]|] eqn:Hfind.
  - apply find_some in Hfind as [Hin Hk].
    apply bool_decide_eq_true in Hk. simpl in Hk. subst k.
    apply list_elem_of_In, list_elem_of_filter in Hin as [Hc Hin].
    apply elem_of_map_to_list in Hin. rewrite Hin. simpl in Hc.
    apply Is_true_true in Hc. by rewrite Hc.
  - destruct (m !! slug) as [row|] eqn:Hrow; [|done].
    destruct (bool_decide (c ∈ app_categories row)) eqn:Hc; [|done].
    exfalso. pose proof (find_none _ _ Hfind (slug, row)) as Hnone.
    simpl in Hnone. rewrite bool_decide_eq_false in Hnone. apply Hnone; [|done].
    apply list_elem_of_In, list_elem_of_filter. split.
    + simpl. by apply Is_true_true.
    + by apply elem_of_map_to_list.
Qed.

Lemma listLocal_run ctx variant st :
  isAdmin ctx = true →
  listLocal' ctx variant st =
  (st,
   if isAppCategory (resolveCategory variant) then
     Ok (filteredApp appKeysSchemas deriveAppDictKeyFromType
           (filter (fun r : string * AppRow =>
                      bool_decide (resolveCategory variant ∈ app_categories r.2))
              (map_to_list (apps st)))
         <$> filter (fun app => la_variant app = variant) getLocalAppMetadata)
   else Err PrismaValidationError).
Proof.
  intros Hadmin. unfold listLocal. rewrite Hadmin. cbn [negb].
  rewrite bind_run. unfold Prisma.app_findMany_has.
  destruct (isAppCategory (resolveCategory variant)); [|done].
  cbn [fst snd mret M_ret]. by rewrite listLocalLoop_spec.
Qed.

Lemma filteredApp_fields variant st app :
  let rec := filteredApp appKeysSchemas deriveAppDictKeyFromType
               (filter (fun r : string * AppRow =>
                          bool_decide (resolveCategory variant ∈ app_categories r.2))
                  (map_to_list (apps st))) app in
  fa_slug rec = la_slug app
  ∧ fa_keys rec =
      match visibleRow st variant (la_slug app) with
      | Some row =>
          if truthy (Some (app_keys row)) then app_keys row
          else keyNames appKeysSchemas deriveAppDictKeyFromType app
      | None => keyNames appKeysSchemas deriveAppDictKeyFromType app
      end
  ∧ fa_enabled rec =
      match visibleRow st variant (la_slug app) with
      | Some row => app_enabled row
      | None => false
      end.
Proof.
  cbv zeta. unfold filteredApp, visibleRow, keyNames. rewrite find_dbApp.
  destruct (apps st !! la_slug app) as [row|]; [|done].
  destruct (bool_decide _); [|done]. cbn [fmap option_fmap option_map compose snd].
  by destruct (truthy (Some (app_keys row))).
Qed.

(** C7 (amended): an admin call emits one record per bundled app of the
    requested variant, in catalogue order (or fails in the query when the
    resolved category is no category name).  The keys of a record are the
    stored keys verbatim when the row of that slug has the resolved
    category among its categories and its keys are truthy; in every other
    case they are the key names of the app's schema, or null when there
    is no schema, and never a stored value. *)
Theorem listLocal_keys_stored_or_names (ctx : Ctx) (variant : string) (st : Store) :
  session_user_role ctx = ADMIN →
  ∃ recs,
    listLocal' ctx variant st =
      (st, if isAppCategory (resolveCategory variant) then Ok recs else Err PrismaValidationError)
    ∧ Forall2
        (fun app rec =>
           fa_slug rec = la_slug app
           ∧ fa_keys rec =
               match visibleRow st variant (la_slug app) with
               | Some row =>
                   if truthy (Some (app_keys row)) then app_keys row
                   else keyNames appKeysSchemas deriveAppDictKeyFromType app
               | None => keyNames appKeysSchemas deriveAppDictKeyFromType app
               end)
        (filter (fun app => la_variant app = variant) getLocalAppMetadata) recs.
Proof.
  intros Hadmin%is_admin. eexists. split; [by apply listLocal_run|].
  apply Forall2_fmap_r, Forall_Forall2_diag, Forall_forall. intros app _.
  pose proof (filteredApp_fields variant st app) as (? & ? & _). done.
Qed.

(** C10: in an admin call, for every bundled app of the requested variant:
    when the store holds no keys for the app (no row, or a row whose keys
    are null or otherwise falsy) and the schema table has no entry under
    the key derived from the app's type, the emitted keys are null; and
    when the store holds no row for the app, the emitted enabled flag is
    false. *)
Theorem listLocal_null_keys_and_default_flag (ctx : Ctx) (variant : string) (st : Store) :
  session_user_role ctx = ADMIN →
  ∃ recs,
    listLocal' ctx variant st =
      (st, if isAppCategory (resolveCategory variant) then Ok recs else Err PrismaValidationError)
    ∧ Forall2
        (fun app rec =>
           fa_slug rec = la_slug app
           ∧ (truthy (app_keys <$> apps st !! la_slug app) = false →
              appKeysSchemas !! deriveAppDictKeyFromType (la_type app) appKeysSchemas = None →
              fa_keys rec = JNull)
           ∧ (apps st !! la_slug app = None → fa_enabled rec = false))
        (filter (fun app => la_variant app = variant) getLocalAppMetadata) recs.
Proof.
  intros Hadmin%is_admin. eexists. split; [by apply listLocal_run|].
  apply Forall2_fmap_r, Forall_Forall2_diag, Forall_forall. intros app _.
  pose proof (filteredApp_fields variant st app) as (Hslug & Hkeys & Hen).
  split; [done|]. split.
  - intros Hfalsy Hschema. rewrite Hkeys. unfold visibleRow, keyNames.
    rewrite Hschema.
    destruct (apps st !! la_slug app) as [row|]; [|done].
    change (truthy (Some (app_keys row)) = false) in Hfalsy.
    destruct (bool_decide _); [|done]. by rewrite Hfalsy.
  - intros Hnone. rewrite Hen. unfold visibleRow. by rewrite Hnone.
Qed.

(** *** saveKeys *)

Lemma parse_error_is_ZodError schema v e :
  Zod.parse schema v = Err e → ∃ issues, e = ZodError issues.
Proof.
  unfold Zod.parse, Zod.safeParse. intros H.
  destruct v as [[| | | | |data]|]; try (injection H as <-; by eexists).
  destruct (Zod.parseShape (Zod.shape schema) data), (Zod.unknownKeys schema),
    (Zod.extraKeys (Zod.shape schema) data);
    try discriminate; injection H as <-; by eexists.
Qed.

Lemma parse_ok_is_object schema v parsed :
  Zod.parse schema v = Ok parsed → ∃ data, v = Some (JObj data).
Proof.
  unfold Zod.parse, Zod.safeParse. intros H.
  destruct v as [[]|]; try discriminate. by eexists.
Qed.

Lemma saveKeys_run ctx input st schema :
  isAdmin ctx = true →
  appKeysSchemas !! deriveAppDictKeyFromType (sk_type input) appKeysSchemas = Some schema →
  saveKeys' ctx input st =
  match Zod.parse schema (sk_keys input) with
  | Ok _ =>
      match apps st !! sk_slug input with
      | Some row =>
          (setApps <[sk_slug input :=
                       mkApp (app_categories row) (default (app_keys row) (sk_keys input))
                         (app_enabled row)]> st, Ok tt)
      | None => (st, Err PrismaRecordNotFound)
      end
  | Err e => (st, Err e)
  end.
Proof.
  intros Hadmin Hschema. unfold saveKeys. rewrite Hadmin, Hschema. cbn [negb].
  rewrite bind_run. unfold liftR. cbn [fst snd].
  destruct (Zod.parse schema (sk_keys input)); [|done].
  rewrite bind_run. unfold Prisma.app_update_keys.
  by destruct (apps st !! sk_slug input).
Qed.

(** C3 (amended): in an admin call whose type resolves to a schema and whose
    slug names a stored row, a payload that passes validation is written to
    the row's keys exactly as supplied, whatever the parsed result is; a
    payload that fails validation is not written: the call fails with the
    validation error and the store is unchanged. *)
Theorem saveKeys_persists_input_only_when_valid
    (ctx : Ctx) (input : SaveKeysInput) (st : Store) (schema : Zod.ZodObject) (row : AppRow) :
  session_user_role ctx = ADMIN →
  appKeysSchemas !! deriveAppDictKeyFromType (sk_type input) appKeysSchemas = Some schema →
  apps st !! sk_slug input = Some row →
  (∀ parsed, Zod.parse schema (sk_keys input) = Ok parsed →
     ∃ keys,
       sk_keys input = Some keys
       ∧ saveKeys' ctx input st =
           (setApps <[sk_slug input := mkApp (app_categories row) keys (app_enabled row)]> st,
            Ok tt))
  ∧ (∀ e, Zod.parse schema (sk_keys input) = Err e → saveKeys' ctx input st = (st, Err e)).
Proof.
  intros Hadmin%is_admin Hschema Hrow.
  rewrite (saveKeys_run _ _ _ _ Hadmin Hschema), Hrow. split.
  - intros parsed Hparse. destruct (parse_ok_is_object _ _ _ Hparse) as [data Hdata].
    exists (JObj data). rewrite Hparse, Hdata. done.
  - intros e ->. done.
Qed.

(** C4: in an admin call whose type resolves to a schema, a payload that
    fails validation makes the procedure fail with the ZodError carrying
    the issues of the parse, and nothing is written. *)
Theorem saveKeys_invalid_payload_raises
    (ctx : Ctx) (input : SaveKeysInput) (st : Store) (schema : Zod.ZodObject) (e : Error) :
  session_user_role ctx = ADMIN →
  appKeysSchemas !! deriveAppDictKeyFromType (sk_type input) appKeysSchemas = Some schema →
  Zod.parse schema (sk_keys input) = Err e →
  saveKeys' ctx input st = (st, Err e) ∧ ∃ issues, e = ZodError issues.
Proof.
  intros Hadmin%is_admin Hschema Hparse.
  rewrite (saveKeys_run _ _ _ _ Hadmin Hschema), Hparse.
  split; [done|]. by eapply parse_error_is_ZodError.
Qed.

(** The branch of the other apps logs no send at all. *)
Lemma toggle_other_sends_nothing ctx input st row :
  isAdmin ctx = true →
  apps st !! ti_slug input = Some row →
  isCalendarOrVideo (app_categories row) = false →
  outbox (toggle' ctx input st).1 = outbox st.
Proof.
  intros Hadmin Hrow Hcat. rewrite (toggle_run _ _ _ _ Hadmin Hrow). cbv zeta.
  destruct (ti_enabled input); [|done]. cbn [fst].
  match goal with |- context [alertUsers _ ?a ?m ?s] =>
    destruct (alertUsers_other a m s Hcat) as (_ & _ & _ & _ & Hout)
  end.
  by rewrite Hout.
Qed.

(** *** More on toggle: failures, frame, event types, repetition *)

Lemma toggle_non_admin ctx input st :
  isAdmin ctx = false → toggle' ctx input st = (st, Err (TRPCError UNAUTHORIZED)).
Proof. intros Hrole. unfold toggle. by rewrite Hrole. Qed.

Lemma toggle_missing ctx input st :
  isAdmin ctx = true →
  apps st !! ti_slug input = None →
  toggle' ctx input st = (st, Err PrismaRecordNotFound).
Proof.
  intros Hadmin Hrow. unfold toggle. rewrite Hadmin. cbn [negb]. rewrite bind_run.
  unfold Prisma.app_update_enabled. by rewrite Hrow.
Qed.

Lemma alertUsers_tables app appMetadata st :
  appMetadata = List.find (fun localApp => bool_decide (la_slug localApp = app.1)) getLocalAppMetadata →
  let st' := (alertUsers deliver app appMetadata st).1 in
  (alertUsers deliver app appMetadata st).2 = Ok tt
  ∧ apps st' = apps st ∧ users st' = users st ∧ credentials st' = credentials st.
Proof.
  intros ->. destruct app as [slug row]. cbv zeta.
  destruct (isCalendarOrVideo (app_categories row)) eqn:Hcat.
  - destruct (alertUsers_calendar slug row st Hcat) as (? & (? & ? & ? & _) & _). done.
  - destruct (alertUsers_other (slug, row)
                (List.find (fun localApp => bool_decide (la_slug localApp = slug))
                   getLocalAppMetadata) st Hcat) as (? & ? & ? & ? & _). done.
Qed.

Lemma toggle_tables ctx input st row :
  isAdmin ctx = true →
  apps st !! ti_slug input = Some row →
  let st' := (toggle' ctx input st).1 in
  (toggle' ctx input st).2 = Ok (negb (ti_enabled input))
  ∧ apps st' = <[ti_slug input := toggledRow row input]> (apps st)
  ∧ users st' = users st ∧ credentials st' = credentials st.
Proof.
  intros Hadmin Hrow. cbv zeta. rewrite (toggle_run _ _ _ _ Hadmin Hrow). cbv zeta.
  destruct (ti_enabled input) eqn:Hen; [|done]. cbn [fst snd].
  match goal with |- context [alertUsers _ ?a ?m ?s] =>
    destruct (alertUsers_tables a m s eq_refl) as (Hres & Happs & Husers & Hcreds)
  end.
  rewrite Hres, Happs, Husers, Hcreds. done.
Qed.

Lemma assoc_setField_ne {A} (k k' : string) (v : A) l :
  k ≠ k' → assoc k' (setField k v l) = assoc k' l.
Proof.
  intros Hne. induction l as [|[k0 v0] l IH]; simpl.
  - by rewrite decide_False.
  - destruct (decide (k0 = k)) as [->|Hk0]; simpl.
    + by rewrite !decide_False.
    + by rewrite IH.
Qed.

Lemma marksEnabled_disableIn slug e : Prisma.marksEnabled slug (disableIn slug e) = false.
Proof.
  unfold disableIn. destruct (Prisma.marksEnabled slug e) eqn:Hmarked; [|done].
  unfold disabledRow. destruct (disabledMetadata_marked _ _ Hmarked) as (md & -> & Hpath).
  unfold Prisma.marksEnabled. cbn [et_metadata]. by rewrite Hpath.
Qed.

Lemma disableIn_idem slug e : disableIn slug (disableIn slug e) = disableIn slug e.
Proof. unfold disableIn at 1. by rewrite marksEnabled_disableIn. Qed.

Lemma alertUsers_other_eventTypes app appMetadata st :
  isCalendarOrVideo (app_categories app.2) = false →
  eventTypes (alertUsers deliver app appMetadata st).1 = disableIn app.1 <$> eventTypes st.
Proof.
  intros Hcat. unfold alertUsers. rewrite Hcat.
  rewrite bind_run. cbn [Prisma.eventType_findMany snd fst]. rewrite bind_run.
  match goal with |- context [startAll ?ts ?s] =>
    destruct (startAll_never_throws ts s) as [rs Hrs]
  end.
  rewrite Hrs. cbn [mret M_ret snd fst].
  set (rows := filter (fun r : nat * EventType => Prisma.marksEnabled app.1 r.2)
                 (map_to_list (eventTypes st))).
  destruct (startAll_disableOnEventType_rows app appMetadata st rows st) as [Hin Hout].
  { apply NoDup_fst_filter, NoDup_fst_map_to_list. }
  { intros id' e' [Hm Hel]%list_elem_of_filter. apply elem_of_map_to_list in Hel.
    split; [done|]. by apply Is_true_true. }
  cbn [fst] in Hin, Hout.
  apply map_eq. intros id. rewrite lookup_fmap. unfold disableIn.
  destruct (eventTypes st !! id) as [e|] eqn:He; cbn [fmap option_fmap option_map].
  - destruct (Prisma.marksEnabled app.1 e) eqn:Hmarked.
    + apply Hin. apply list_elem_of_filter. split.
      * simpl. by apply Is_true_true.
      * by apply elem_of_map_to_list.
    + rewrite Hout; [done|].
      intros ([id' e'] & Heq & [Hm Hel]%list_elem_of_filter)%list_elem_of_fmap.
      simpl in Heq. subst id'. apply elem_of_map_to_list in Hel.
      rewrite He in Hel. injection Hel as <-. simpl in Hm.
      apply Is_true_true in Hm. congruence.
  - rewrite Hout; [done|].
    intros ([id' e'] & Heq & [_ Hel]%list_elem_of_filter)%list_elem_of_fmap.
    simpl in Heq. subst id'. apply elem_of_map_to_list in Hel. congruence.
Qed.

Lemma store_eq (a b : Store) :
  apps a = apps b → users a = users b → credentials a = credentials b →
  eventTypes a = eventTypes b → outbox a = outbox b → a = b.
Proof. destruct a, b. simpl. by intros -> -> -> -> ->. Qed.

(** What toggle does to the whole store when it sends nothing: enabling,
    or disabling an app that is neither a calendar nor a video app. *)
Lemma toggle_silent ctx input st row :
  isAdmin ctx = true →
  apps st !! ti_slug input = Some row →
  (ti_enabled input = true → isCalendarOrVideo (app_categories row) = false) →
  toggle' ctx input st =
  (mkStore (<[ti_slug input := toggledRow row input]> (apps st)) (users st) (credentials st)
     (if ti_enabled input then disableIn (ti_slug input) <$> eventTypes st else eventTypes st)
     (outbox st),
   Ok (negb (ti_enabled input))).
Proof.
  intros Hadmin Hrow Hcat.
  destruct (toggle_tables ctx input st row Hadmin Hrow) as (Hres & Happs & Husers & Hcreds).
  rewrite (surjective_pairing (toggle' ctx input st)). rewrite Hres. f_equal.
  apply store_eq; cbn [apps users credentials eventTypes outbox]; try done.
  - rewrite (toggle_run _ _ _ _ Hadmin Hrow). cbv zeta.
    destruct (ti_enabled input); [|done]. cbn [fst].
    by rewrite alertUsers_other_eventTypes by (by apply Hcat).
  - rewrite (toggle_run _ _ _ _ Hadmin Hrow). cbv zeta.
    destruct (ti_enabled input); [|done]. cbn [fst].
    match goal with |- context [alertUsers _ ?a ?m ?s] =>
      destruct (alertUsers_other a m s (Hcat eq_refl)) as (_ & _ & _ & _ & Hout)
    end.
    by rewrite Hout.
Qed.

(** X1: for an admin, toggling a slug that has no app row fails with the
    client's record-not-found error and changes nothing, the outbox
    included. *)
Theorem toggle_unknown_slug_fails (ctx : Ctx) (input : ToggleInput) (st : Store) :
  session_user_role ctx = ADMIN →
  apps st !! ti_slug input = None →
  toggle' ctx input st = (st, Err PrismaRecordNotFound).
Proof. intros Hadmin%is_admin Hrow. by apply toggle_missing. Qed.

(** X2: whoever calls toggle with whatever input, users and credentials
    are never changed, no app row other than the addressed one is
    changed, none is added, and the addressed row keeps its categories
    and keys. *)
Theorem toggle_frame (ctx : Ctx) (input : ToggleInput) (st : Store) :
  let st' := (toggle' ctx input st).1 in
  users st' = users st
  ∧ credentials st' = credentials st
  ∧ (∀ slug, slug ≠ ti_slug input → apps st' !! slug = apps st !! slug)
  ∧ (∀ row', apps st' !! ti_slug input = Some row' →
       ∃ row, apps st !! ti_slug input = Some row
              ∧ app_categories row' = app_categories row
              ∧ app_keys row' = app_keys row).
Proof.
  cbv zeta. destruct (isAdmin ctx) eqn:Hadmin.
  - destruct (apps st !! ti_slug input) as [row|] eqn:Hrow.
    + destruct (toggle_tables ctx input st row Hadmin Hrow) as (_ & Happs & Husers & Hcreds).
      rewrite Happs, Husers, Hcreds. repeat split; try done.
      * intros slug Hne. by rewrite lookup_insert_ne.
      * intros row'. rewrite lookup_insert_eq. intros [= <-]. by exists row.
    + rewrite (toggle_missing _ _ _ Hadmin Hrow). cbn [fst]. rewrite Hrow.
      repeat split; done.
  - rewrite (toggle_non_admin _ _ _ Hadmin). cbn [fst]. repeat split; try done.
    intros row' Hrow'. by exists row'.
Qed.


(** X4: switching an app off in an event type that marks it enabled keeps
    the title and the users of the row, every other top-level property of
    the metadata, the settings of every other app, and every other
    setting of the app itself; only the enabled flag of the app becomes
    false. *)
Theorem disabledRow_keeps_other_settings (slug : string) (e : EventType) :
  Prisma.marksEnabled slug e = true →
  let e' := disabledRow slug e in
  et_title e' = et_title e
  ∧ et_users e' = et_users e
  ∧ (∀ k, k ≠ "apps" →
       Prisma.getPath [k] (et_metadata e') = Prisma.getPath [k] (et_metadata e))
  ∧ (∀ other, other ≠ slug →
       Prisma.getPath ["apps"; other] (et_metadata e')
       = Prisma.getPath ["apps"; other] (et_metadata e))
  ∧ (∀ field, field ≠ "enabled" →
       Prisma.getPath ["apps"; slug; field] (et_metadata e')
       = Prisma.getPath ["apps"; slug; field] (et_metadata e))
  ∧ Prisma.getPath ["apps"; slug; "enabled"] (et_metadata e') = Some (JBool false).
Proof.
  unfold Prisma.marksEnabled, disabledRow, disabledMetadata. cbv zeta.
  destruct e as [title us md]. cbn [et_metadata et_title et_users].
  destruct md as [| | | | |fields]; try done. cbn [Prisma.getPath getProp].
  destruct (assoc "apps" fields) as [[| | | | |afields]|] eqn:Happs; try done.
  cbn [mbind option_bind Prisma.getPath getProp].
  destruct (assoc slug afields) as [[| | | | |sfields]|] eqn:Hslot; try done.
  cbn [mbind option_bind Prisma.getPath spread et_metadata et_title et_users].
  intros _. repeat split.
  - intros k Hk. by rewrite assoc_setField_ne.
  - intros other Hother. rewrite assoc_setField. cbn [mbind option_bind].
    by rewrite assoc_setField_ne.
  - intros field Hfield. rewrite assoc_setField. cbn [mbind option_bind].
    rewrite assoc_setField. cbn [mbind option_bind].
    by rewrite assoc_setField_ne.
  - rewrite assoc_setField. cbn [mbind option_bind].
    rewrite assoc_setField. cbn [mbind option_bind].
    by rewrite assoc_setField.
Qed.

(** X5: unless the call disables a calendar or video app (which sends
    notices again), repeating a toggle call with the same input changes
    nothing more: the second call leaves the store of the first and
    returns the same result.  This holds for any caller, also when the
    call fails. *)
Theorem toggle_twice_is_once (ctx : Ctx) (input : ToggleInput) (st : Store) :
  (∀ row, apps st !! ti_slug input = Some row → ti_enabled input = true →
          isCalendarOrVideo (app_categories row) = false) →
  toggle' ctx input (toggle' ctx input st).1 = toggle' ctx input st.
Proof.
  intros Hcat. destruct (isAdmin ctx) eqn:Hadmin.
  2: { rewrite (toggle_non_admin ctx input st Hadmin). cbn [fst].
       by rewrite (toggle_non_admin ctx input st Hadmin). }
  destruct (apps st !! ti_slug input) as [row|] eqn:Hrow.
  2: { rewrite (toggle_missing ctx input st Hadmin Hrow). cbn [fst].
       by rewrite (toggle_missing ctx input st Hadmin Hrow). }
  rewrite (toggle_silent _ _ _ _ Hadmin Hrow (Hcat row eq_refl)). cbn [fst].
  rewrite (toggle_silent ctx input _ (toggledRow row input) Hadmin).
  - cbn [apps users credentials eventTypes outbox]. f_equal.
    apply store_eq; cbn [apps users credentials eventTypes outbox]; try done.
    + by rewrite insert_insert_eq.
    + destruct (ti_enabled input); [|done].
      rewrite <- map_fmap_compose. apply map_fmap_ext. intros id e _.
      apply disableIn_idem.
  - cbn [apps]. by rewrite lookup_insert_eq.
  - intros Hen. apply (Hcat row eq_refl Hen).
Qed.

(** *** More on listLocal and saveKeys *)

Lemma filteredApp_metadata dbApps app :
  let rec := filteredApp appKeysSchemas deriveAppDictKeyFromType dbApps app in
  fa_name rec = la_name app ∧ fa_slug rec = la_slug app ∧ fa_logo rec = la_logo app
  ∧ fa_title rec = la_title app ∧ fa_type rec = la_type app
  ∧ fa_description rec = la_description app.
Proof. cbv zeta. unfold filteredApp. by destruct (truthy _). Qed.

(** The record of a catalogue entry of the requested variant is among the
    records of an admin call. *)
Lemma listLocal_has_record ctx variant st app :
  isAdmin ctx = true →
  isAppCategory (resolveCategory variant) = true →
  app ∈ getLocalAppMetadata →
  la_variant app = variant →
  ∃ recs,
    listLocal' ctx variant st = (st, Ok recs)
    ∧ filteredApp appKeysSchemas deriveAppDictKeyFromType
        (filter (fun r : string * AppRow =>
                   bool_decide (resolveCategory variant ∈ app_categories r.2))
           (map_to_list (apps st))) app ∈ recs.
Proof.
  intros Hadmin Hvalid Hin Hvariant. eexists. split.
  - rewrite (listLocal_run _ _ _ Hadmin), Hvalid. done.
  - apply list_elem_of_fmap. exists app. split; [done|].
    by apply list_elem_of_filter.
Qed.

(** X6: an admin call returns one record per catalogue entry of the
    requested variant, in catalogue order and with no other record, each
    copying name, slug, logo, title, type and description of its entry;
    the store is returned as it was. *)
Theorem listLocal_mirrors_catalogue (ctx : Ctx) (variant : string) (st : Store) :
  session_user_role ctx = ADMIN →
  ∃ recs,
    listLocal' ctx variant st =
      (st, if isAppCategory (resolveCategory variant) then Ok recs else Err PrismaValidationError)
    ∧ Forall2
        (fun app rec =>
           fa_name rec = la_name app ∧ fa_slug rec = la_slug app ∧ fa_logo rec = la_logo app
           ∧ fa_title rec = la_title app ∧ fa_type rec = la_type app
           ∧ fa_description rec = la_description app)
        (filter (fun app => la_variant app = variant) getLocalAppMetadata) recs.
Proof.
  intros Hadmin%is_admin. eexists. split; [by apply listLocal_run|].
  apply Forall2_fmap_r, Forall_Forall2_diag, Forall_forall. intros app _.
  apply filteredApp_metadata.
Qed.

(** X7: the enabled flag of an emitted record is the stored flag when the
    row of that slug has the resolved category among its categories, and
    false otherwise: an app without a row, and an app whose row is filed
    under other categories only, are both listed as not enabled. *)
Theorem listLocal_enabled_flag (ctx : Ctx) (variant : string) (st : Store) :
  session_user_role ctx = ADMIN →
  ∃ recs,
    listLocal' ctx variant st =
      (st, if isAppCategory (resolveCategory variant) then Ok recs else Err PrismaValidationError)
    ∧ Forall2
        (fun app rec =>
           fa_slug rec = la_slug app
           ∧ fa_enabled rec =
               match apps st !! la_slug app with
               | Some row =>
                   bool_decide (resolveCategory variant ∈ app_categories row) && app_enabled row
               | None => false
               end)
        (filter (fun app => la_variant app = variant) getLocalAppMetadata) recs.
Proof.
  intros Hadmin%is_admin. eexists. split; [by apply listLocal_run|].
  apply Forall2_fmap_r, Forall_Forall2_diag, Forall_forall. intros app _.
  pose proof (filteredApp_fields variant st app) as (Hslug & _ & Hen).
  split; [done|]. rewrite Hen. unfold visibleRow.
  destruct (apps st !! la_slug app) as [row|]; [|done].
  by destruct (bool_decide _).
Qed.

(** X8: for an admin, a type whose derived key has no entry in the schema
    table makes saveKeys fail with a TypeError (the call of parse on
    undefined), not with a validation error, and nothing is written. *)
Theorem saveKeys_without_schema_fails (ctx : Ctx) (input : SaveKeysInput) (st : Store) :
  session_user_role ctx = ADMIN →
  appKeysSchemas !! deriveAppDictKeyFromType (sk_type input) appKeysSchemas = None →
  saveKeys' ctx input st = (st, Err (TypeError "parse")).
Proof.
  intros Hadmin%is_admin Hschema. unfold saveKeys. by rewrite Hadmin, Hschema.
Qed.

(** X9: for an admin, a payload that passes validation but names a slug
    without an app row fails with the client's record-not-found error; no
    row is created. *)
Theorem saveKeys_unknown_slug_fails
    (ctx : Ctx) (input : SaveKeysInput) (st : Store) (schema : Zod.ZodObject) (parsed : Json) :
  session_user_role ctx = ADMIN →
  appKeysSchemas !! deriveAppDictKeyFromType (sk_type input) appKeysSchemas = Some schema →
  Zod.parse schema (sk_keys input) = Ok parsed →
  apps st !! sk_slug input = None →
  saveKeys' ctx input st = (st, Err PrismaRecordNotFound).
Proof.
  intros Hadmin%is_admin Hschema Hparse Hrow.
  by rewrite (saveKeys_run _ _ _ _ Hadmin Hschema), Hparse, Hrow.
Qed.

(** X10: whoever calls saveKeys with whatever input, users, credentials,
    event types and the outbox are never changed, no app row other than
    the addressed one is changed, none is added, and the addressed row
    keeps its categories and its enabled flag. *)
Theorem saveKeys_frame (ctx : Ctx) (input : SaveKeysInput) (st : Store) :
  let st' := (saveKeys' ctx input st).1 in
  users st' = users st
  ∧ credentials st' = credentials st
  ∧ eventTypes st' = eventTypes st
  ∧ outbox st' = outbox st
  ∧ (∀ slug, slug ≠ sk_slug input → apps st' !! slug = apps st !! slug)
  ∧ (∀ row', apps st' !! sk_slug input = Some row' →
       ∃ row, apps st !! sk_slug input = Some row
              ∧ app_categories row' = app_categories row
              ∧ app_enabled row' = app_enabled row).
Proof.
  cbv zeta.
  assert (∀ row', apps st !! sk_slug input = Some row' →
            ∃ row, apps st !! sk_slug input = Some row
                   ∧ app_categories row' = app_categories row
                   ∧ app_enabled row' = app_enabled row) as Hsame.
  { intros row' Hrow'. by exists row'. }
  destruct (isAdmin ctx) eqn:Hadmin.
  2: { unfold saveKeys. rewrite Hadmin. cbn [negb throw fst]. by repeat split. }
  destruct (appKeysSchemas !! deriveAppDictKeyFromType (sk_type input) appKeysSchemas)
    as [schema|] eqn:Hschema.
  2: { unfold saveKeys. rewrite Hadmin, Hschema. cbn [negb throw fst]. by repeat split. }
  rewrite (saveKeys_run _ _ _ _ Hadmin Hschema).
  destruct (Zod.parse schema (sk_keys input)); [|by repeat split].
  destruct (apps st !! sk_slug input) as [row|] eqn:Hrow.
  2: { cbn [fst]. rewrite Hrow. by repeat split. }
  cbn [fst setApps apps users credentials eventTypes outbox]. repeat split; try done.
  - intros slug Hne. by rewrite lookup_insert_ne.
  - intros row'. rewrite lookup_insert_eq. intros [= <-]. by exists row.
Qed.

(** X11: keys saved by an admin come back from listLocal: after a
    successful saveKeys on a row that has the resolved category of the
    variant, the listing of that variant holds, for a catalogue entry of
    that slug, a record whose keys are the payload exactly as it was
    supplied, and whose enabled flag is the stored one. *)
Theorem saveKeys_then_listLocal
    (ctx : Ctx) (input : SaveKeysInput) (st : Store) (schema : Zod.ZodObject) (parsed : Json)
    (row : AppRow) (variant : string) (app : LocalApp) :
  session_user_role ctx = ADMIN →
  appKeysSchemas !! deriveAppDictKeyFromType (sk_type input) appKeysSchemas = Some schema →
  Zod.parse schema (sk_keys input) = Ok parsed →
  apps st !! sk_slug input = Some row →
  resolveCategory variant ∈ app_categories row →
  isAppCategory (resolveCategory variant) = true →
  app ∈ getLocalAppMetadata →
  la_variant app = variant →
  la_slug app = sk_slug input →
  ∃ recs rec,
    (saveKeys' ctx input st).2 = Ok tt
    ∧ (listLocal' ctx variant (saveKeys' ctx input st).1).2 = Ok recs
    ∧ rec ∈ recs
    ∧ fa_slug rec = sk_slug input
    ∧ Some (fa_keys rec) = sk_keys input
    ∧ fa_enabled rec = app_enabled row.
Proof.
  intros Hadmin%is_admin Hschema Hparse Hrow Hcat Hvalid Hin Hvariant Hslug.
  rewrite (saveKeys_run _ _ _ _ Hadmin Hschema), Hparse, Hrow. cbn [fst snd].
  destruct (parse_ok_is_object _ _ _ Hparse) as [data Hdata]. rewrite Hdata.
  cbn [default].
  set (st1 := setApps _ st).
  destruct (listLocal_has_record ctx variant st1 app Hadmin Hvalid Hin Hvariant)
    as (recs & Hrun & Hrec).
  eexists recs, _. split; [done|]. rewrite Hrun. split; [done|]. split; [exact Hrec|].
  pose proof (filteredApp_fields variant st1 app) as (Hs & Hkeys & Hen).
  rewrite Hs, Hkeys, Hen. unfold visibleRow. rewrite Hslug. subst st1.
  cbn [setApps apps]. rewrite lookup_insert_eq. cbn [app_categories].
  rewrite bool_decide_eq_true_2 by done. done.
Qed.

(** X12: a flag set by toggle comes back from listLocal: after an admin
    toggles an existing row that has the resolved category of the
    variant, the listing of that variant holds, for a catalogue entry of
    that slug, a record whose enabled flag is !input.enabled, which is
    also what toggle returned. *)
Theorem toggle_then_listLocal
    (ctx : Ctx) (input : ToggleInput) (st : Store) (row : AppRow)
    (variant : string) (app : LocalApp) :
  session_user_role ctx = ADMIN →
  apps st !! ti_slug input = Some row →
  resolveCategory variant ∈ app_categories row →
  isAppCategory (resolveCategory variant) = true →
  app ∈ getLocalAppMetadata →
  la_variant app = variant →
  la_slug app = ti_slug input →
  ∃ recs rec,
    (listLocal' ctx variant (toggle' ctx input st).1).2 = Ok recs
    ∧ rec ∈ recs
    ∧ fa_slug rec = ti_slug input
    ∧ fa_enabled rec = negb (ti_enabled input)
    ∧ (toggle' ctx input st).2 = Ok (fa_enabled rec).
Proof.
  intros Hadmin%is_admin Hrow Hcat Hvalid Hin Hvariant Hslug.
  destruct (toggle_tables ctx input st row Hadmin Hrow) as (Hres & Happs & _).
  set (st1 := (toggle' ctx input st).1) in *.
  destruct (listLocal_has_record ctx variant st1 app Hadmin Hvalid Hin Hvariant)
    as (recs & Hrun & Hrec).
  eexists recs, _. rewrite Hrun. split; [done|]. split; [exact Hrec|].
  pose proof (filteredApp_fields variant st1 app) as (Hs & _ & Hen).
  rewrite Hs, Hen, Hres. unfold visibleRow. rewrite Hslug, Happs, lookup_insert_eq.
  unfold toggledRow. cbn [app_categories app_enabled].
  rewrite bool_decide_eq_true_2 by done. done.
Qed.

End RouterFacts.

Section PageFacts.

Variable stringOrNumber : Zod.ZodType.

(** A parameter that parses is handed to the page, revalidated every ten
    seconds. *)
Lemma getStaticProps_valid data v :
  stringOrNumber (assoc "schedule" data) = inr (Some v) →
  getStaticProps stringOrNumber (Some (JObj data)) = Props (Some v) 10.
Proof.
  intros Hv. unfold getStaticProps, Zod.safeParse. simpl. by rewrite Hv.
Qed.

(** C9: whenever the route parameters do not hold a schedule value that
    parses as stringOrNumber (the parameters are missing or no object, or
    the value is rejected), the build step returns notFound, and the page
    component gets no props to render the form from. *)
Theorem getStaticProps_invalid_is_notFound (ctxParams : option Json) :
  (∀ data, ctxParams = Some (JObj data) →
     ∃ issues, stringOrNumber (assoc "schedule" data) = inl issues) →
  getStaticProps stringOrNumber ctxParams = NotFound
  ∧ rendersForm (getStaticProps stringOrNumber ctxParams) = false.
Proof.
  intros Hinvalid.
  assert (getStaticProps stringOrNumber ctxParams = NotFound) as ->; [|done].
  unfold getStaticProps, Zod.safeParse.
  destruct ctxParams as [[| | | | |data]|]; try done.
  destruct (Hinvalid data eq_refl) as [issues Hissues].
  simpl. by rewrite Hissues.
Qed.

(** X13: when the schedule value of the route parameters parses, the
    build step returns props carrying the parsed value and a revalidation
    period of ten seconds, whatever other route parameters are present. *)
Theorem getStaticProps_accepts_parsed_value (data : list (string * Json)) (v : option Json) :
  stringOrNumber (assoc "schedule" data) = inr v →
  getStaticProps stringOrNumber (Some (JObj data)) = Props v 10
  ∧ rendersForm (getStaticProps stringOrNumber (Some (JObj data))) = true.
Proof.
  intros Hv.
  assert (getStaticProps stringOrNumber (Some (JObj data)) = Props v 10) as ->; [|done].
  unfold getStaticProps, Zod.safeParse. simpl. rewrite Hv. by destruct v.
Qed.

End PageFacts.

(** *** The event type filter and the week start *)

Lemma groupsReduce_acc groups acc :
  groupsReduce groups acc =
  match groupsReduce groups [] with
  | Ok views => Ok (acc ++ views)
  | Err e => Err e
  end.
Proof.
  revert acc. induction groups as [|g groups IH]; intros acc; simpl.
  - by rewrite app_nil_r.
  - destruct (groupView g) as [v|e]; [|done].
    rewrite (IH (acc ++ [v])), (IH [v]).
    destruct (groupsReduce groups []); [|done]. by rewrite <- app_assoc.
Qed.

Lemma groupsReduce_cons g groups :
  groupsReduce (g :: groups) [] =
  match groupView g with
  | Ok v =>
      match groupsReduce groups [] with
      | Ok views => Ok (v :: views)
      | Err e => Err e
      end
  | Err e => Err e
  end.
Proof. simpl. destruct (groupView g) as [v|e]; [|done]. by rewrite groupsReduce_acc. Qed.

Lemma groupView_error g e : groupView g = Err e → ∃ what, e = TypeError what.
Proof.
  unfold groupView. destruct (group_eventTypes g) as [|first rest].
  - intros [= <-]. by eexists.
  - destruct (item_team first); [done|].
    destruct (item_users first); [|done]. intros [= <-]. by eexists.
Qed.

(** X14: when every group has a first event type that has a team or at
    least one user, the menu gets one entry per group, in order; the
    entry lists the titles of all event types of the group, and is
    labelled by the first event type alone: with the name of its team if
    it has one, else with the name of its first user, and with the empty
    string when that name is not set. *)
Theorem eventTypeGroups_one_entry_per_group (groups : list EventTypeGroup) :
  Forall (fun g => ∃ first rest,
            group_eventTypes g = first :: rest
            ∧ (item_team first = None → item_users first ≠ [])) groups →
  ∃ views,
    eventTypeGroups (Some groups) = Ok (Some views)
    ∧ Forall2
        (fun g v =>
           eventTypeNames v = item_title <$> group_eventTypes g
           ∧ ∃ first, head (group_eventTypes g) = Some first
               ∧ groupName v =
                   match item_team first with
                   | Some team => orElseStr (team_name team) ""
                   | None => orElseStr (head (item_users first) ≫= member_name) ""
                   end)
        groups views.
Proof.
  unfold eventTypeGroups. induction 1 as [|g groups (first & rest & Hg & Huser) _ IH].
  - by eexists.
  - destruct IH as (views & Hviews & Hall). rewrite groupsReduce_cons.
    destruct (groupsReduce groups []) as [views'|]; [|done]. injection Hviews as ->.
    unfold groupView. rewrite Hg.
    destruct (item_team first) as [team|] eqn:Hteam.
    + eexists. split; [done|]. constructor; [|done]. cbn [eventTypeNames groupName].
      split; [by rewrite Hg|]. exists first. rewrite Hg. cbn [head]. by rewrite Hteam.
    + destruct (item_users first) as [|user users'] eqn:Husers; [by destruct Huser|].
      eexists. split; [done|]. constructor; [|done]. cbn [eventTypeNames groupName].
      split; [by rewrite Hg|]. exists first. rewrite Hg. cbn [head]. by rewrite Hteam, Husers.
Qed.

(** X15: one group without event types, or whose first event type has
    neither a team nor a user, makes the whole fold throw a TypeError,
    whatever the other groups are: no menu entries are produced at all. *)
Theorem eventTypeGroups_throws_on_bad_group (groups : list EventTypeGroup) :
  Exists (fun g => match group_eventTypes g with
                   | [] => True
                   | first :: _ => item_team first = None ∧ item_users first = []
                   end) groups →
  ∃ what, eventTypeGroups (Some groups) = Err (TypeError what).
Proof.
  unfold eventTypeGroups. induction 1 as [g groups Hbad|g groups _ IH];
    rewrite groupsReduce_cons.
  - unfold groupView. destruct (group_eventTypes g) as [|first rest]; [by eexists|].
    destruct Hbad as [-> ->]. by eexists.
  - destruct IH as [what Hwhat].
    destruct (groupsReduce groups []) as [|e]; [done|]. injection Hwhat as ->.
    destruct (groupView g) as [v|e'] eqn:Hview; [by eexists|].
    destruct (groupView_error _ _ Hview) as [what' ->]. by eexists.
Qed.

Lemma indexOfFrom_absent i l x : x ∉ l → indexOfFrom i l x = (-1)%Z.
Proof.
  revert i. induction l as [|y l IH]; intros i Hx; [done|].
  apply not_elem_of_cons in Hx as [Hne Hx]. simpl.
  rewrite decide_False by done. by apply IH.
Qed.

Lemma indexOfFrom_present i l x :
  x ∈ l →
  (i ≤ indexOfFrom i l x < i + Z.of_nat (length l))%Z
  ∧ l !! Z.to_nat (indexOfFrom i l x - i) = Some x.
Proof.
  revert i. induction l as [|y l IH]; intros i Hx; [by apply elem_of_nil in Hx|].
  simpl. destruct (decide (y = x)) as [->|Hne].
  - rewrite Z.sub_diag. split; [lia|done].
  - apply elem_of_cons in Hx as [->|Hx]; [done|].
    destruct (IH (i + 1)%Z Hx) as [Hrange Hlookup]. split; [lia|].
    replace (Z.to_nat (indexOfFrom (i + 1) l x - i))
      with (S (Z.to_nat (indexOfFrom (i + 1) l x - (i + 1)))) by lia.
    done.
Qed.

(** X16: the index handed to the schedule grid is the position of the
    user's week start among the seven English day names, Sunday being 0;
    for every other string it is -1, which is outside the range 0..6 the
    prop is cast to. *)
Theorem scheduleWeekStart_index (day : string) :
  ∃ i,
    scheduleWeekStart (Some day) = Some i
    ∧ (day ∈ weekDays → (0 ≤ i ≤ 6)%Z ∧ weekDays !! Z.to_nat i = Some day)
    ∧ (day ∉ weekDays → i = (-1)%Z).
Proof.
  exists (indexOf weekDays day). split; [done|]. unfold indexOf. split.
  - intros Hin. destruct (indexOfFrom_present 0 weekDays day Hin) as [Hrange Hlookup].
    rewrite Z.sub_0_r in Hlookup. split; [|done].
    change (length weekDays) with 7 in Hrange. lia.
  - apply indexOfFrom_absent.
Qed.

Lemma non_admin_is_unauthorized_witness :
  session_user_role Sample.member ≠ ADMIN
  ∧ toggle Sample.catalogue Sample.deliverAll Sample.member (mkToggleInput "stripe" true)
      Sample.store = (Sample.store, Err (TRPCError UNAUTHORIZED)).
Proof.
  assert (H : session_user_role Sample.member ≠ ADMIN) by (simpl; discriminate).
  split; [exact H |].
  apply (non_admin_is_unauthorized Sample.catalogue Sample.schemas Sample.deriveKey
           Sample.isAppCategory Sample.deliverAll Sample.member Sample.store H).
Defined.

(** ** The statements on the sample data *)

Section OnSample.

Import Sample.

Local Abbreviation listLocal' := (listLocal catalogue schemas deriveKey isAppCategory).
Local Abbreviation saveKeys' := (saveKeys schemas deriveKey).

Lemma toggle_stores_negation_witness :
  session_user_role admin = ADMIN
  ∧ apps store !! "stripe" = Some (mkApp ["payment"] JNull true)
  ∧ ∃ row',
      apps (toggle catalogue deliverNone admin disableStripe store).1 !! "stripe" = Some row'
      ∧ app_enabled row' = false
      ∧ app_categories row' = ["payment"]
      ∧ app_keys row' = JNull
      ∧ (toggle catalogue deliverNone admin disableStripe store).2 = Ok (app_enabled row').
Proof.
  split; [reflexivity|]. split; [reflexivity|].
  apply (toggle_stores_negation catalogue deliverNone admin disableStripe store
           (mkApp ["payment"] JNull true)); reflexivity.
Defined.

Lemma toggle_enabling_only_sets_flag_witness :
  session_user_role admin = ADMIN
  ∧ ti_enabled enableStripe = false
  ∧ outbox (toggle catalogue deliverAll admin enableStripe store).1 = []
  ∧ eventTypes (toggle catalogue deliverAll admin enableStripe store).1 = eventTypes store
  ∧ users (toggle catalogue deliverAll admin enableStripe store).1 = users store
  ∧ credentials (toggle catalogue deliverAll admin enableStripe store).1 = credentials store
  ∧ apps (toggle catalogue deliverAll admin enableStripe store).1 =
      match apps store !! "stripe" with
      | Some row => <["stripe" := mkApp (app_categories row) (app_keys row) true]> (apps store)
      | None => apps store
      end.
Proof.
  split; [reflexivity|]. split; [reflexivity|].
  apply (toggle_enabling_only_sets_flag catalogue deliverAll admin enableStripe store);
    reflexivity.
Defined.

(** C6, as stated, fails: one user holds both credentials of the calendar
    app, and disabling the app triggers two sends, not one. *)
Lemma one_user_two_credentials_two_sends :
  credentialedUsers store "google-calendar" = [1]
  ∧ outbox (toggle catalogue deliverAll admin disableCalendar store).1 =
      [ DisabledAppEmail "alice@example.com" "Google Calendar" ["calendar"] (mkT "fr" "common");
        DisabledAppEmail "alice@example.com" "Google Calendar" ["calendar"] (mkT "fr" "common") ]
  ∧ length (outbox (toggle catalogue deliverAll admin disableCalendar store).1)
    ≠ length (credentialedUsers store "google-calendar").
Proof. split; [|split]; [reflexivity | reflexivity | vm_compute; discriminate]. Qed.

Lemma toggle_calendar_notifies_per_credential_witness :
  session_user_role admin = ADMIN
  ∧ ti_enabled disableCalendar = true
  ∧ apps store !! "google-calendar" = Some (mkApp ["calendar"] JNull true)
  ∧ isCalendarOrVideo ["calendar"] = true
  ∧ (toggle catalogue deliverNone admin disableCalendar store).2 = Ok false
  ∧ outbox (toggle catalogue deliverNone admin disableCalendar store).1 =
      outbox store
      ++ omap (noticeFor catalogue "google-calendar" (mkApp ["calendar"] JNull false))
           (Prisma.cred_user store <$> credentialsOf store "google-calendar")
  ∧ apps (toggle catalogue deliverNone admin disableCalendar store).1 =
      <["google-calendar" := mkApp ["calendar"] JNull false]> (apps store)
  ∧ users (toggle catalogue deliverNone admin disableCalendar store).1 = users store
  ∧ credentials (toggle catalogue deliverNone admin disableCalendar store).1 = credentials store
  ∧ eventTypes (toggle catalogue deliverNone admin disableCalendar store).1 = eventTypes store.
Proof.
  do 4 (split; [reflexivity|]).
  apply (toggle_calendar_notifies_per_credential catalogue deliverNone admin disableCalendar
           store (mkApp ["calendar"] JNull true)); reflexivity.
Defined.

(** C2 at a failing input: Stripe is neither a calendar nor a video app and
    event type 7, with the users alice and bob, marks it enabled.  Disabling
    Stripe writes the event type back with the flag off, the callback over
    the event type is rejected at the unbound identifier [user], and the
    outbox stays empty although every send would succeed. *)
Theorem toggle_other_app_notifies_nobody :
  isCalendarOrVideo ["payment"] = false
  ∧ Prisma.eventType_findMany "stripe" store =
      (store, Ok [Prisma.mkSel 7 "Paid call" [alice; bob] paidMetadata])
  ∧ toggle catalogue deliverAll admin disableStripe store =
      (mkStore
         (<["stripe" := mkApp ["payment"] JNull false]> (apps store))
         (users store) (credentials store)
         {[ 7 := mkEventType "Paid call" [1; 2]
                   (JObj [("apps", JObj [("stripe",
                      JObj [("enabled", JBool false); ("price", JNum 500)])])]) ]}
         [],
       Ok false)
  ∧ (disableOnEventType deliverAll ("stripe", mkApp ["payment"] JNull false)
       (List.find (fun localApp => bool_decide (la_slug localApp = "stripe")) catalogue)
       (Prisma.mkSel 7 "Paid call" [alice; bob] paidMetadata) store).2
    = Err (ReferenceError "user").
Proof. repeat split; vm_compute; reflexivity. Qed.

(** C3, as stated, fails: the payload is rejected by the Stripe schema, the
    call ends in the validation error and the row's keys are not written. *)
Lemma rejected_payload_is_not_written :
  (∃ issues, Zod.parse stripeKeys (sk_keys saveBad) = Err (ZodError issues))
  ∧ (saveKeys' admin saveBad store).1 = store
  ∧ app_keys <$> apps (saveKeys' admin saveBad store).1 !! "stripe" = Some JNull
  ∧ Some JNull ≠ sk_keys saveBad.
Proof.
  split; [by eexists|]. split; [reflexivity|]. split; [reflexivity|]. discriminate.
Qed.

Lemma saveKeys_persists_input_only_when_valid_witness :
  session_user_role admin = ADMIN
  ∧ schemas !! deriveKey (sk_type saveRich) schemas = Some stripeKeys
  ∧ apps store !! sk_slug saveRich = Some (mkApp ["payment"] JNull true)
  ∧ (∀ parsed, Zod.parse stripeKeys (sk_keys saveRich) = Ok parsed →
       ∃ keys,
         sk_keys saveRich = Some keys
         ∧ saveKeys' admin saveRich store =
             (setApps <[sk_slug saveRich := mkApp ["payment"] keys true]> store, Ok tt))
  ∧ (∀ e, Zod.parse stripeKeys (sk_keys saveRich) = Err e →
       saveKeys' admin saveRich store = (store, Err e)).
Proof.
  do 3 (split; [reflexivity|]).
  apply (saveKeys_persists_input_only_when_valid schemas deriveKey admin saveRich store
           stripeKeys (mkApp ["payment"] JNull true)); reflexivity.
Defined.

(** On that payload the parsed value and the written value differ: parsing
    drops the key the schema does not name, the row keeps it. *)
Lemma saveKeys_writes_unparsed_payload :
  Zod.parse stripeKeys (sk_keys saveRich) =
    Ok (JObj [("client_id", JStr "ca_1"); ("client_secret", JStr "sk_1")])
  ∧ app_keys <$> apps (saveKeys' admin saveRich store).1 !! "stripe" = Some richKeys.
Proof. split; reflexivity. Qed.

Lemma saveKeys_invalid_payload_raises_witness :
  session_user_role admin = ADMIN
  ∧ schemas !! deriveKey (sk_type saveBad) schemas = Some stripeKeys
  ∧ Zod.parse stripeKeys (sk_keys saveBad) =
      Err (ZodError [mkIssue "invalid_type" ["client_id"];
                     mkIssue "invalid_type" ["client_secret"]])
  ∧ saveKeys' admin saveBad store =
      (store, Err (ZodError [mkIssue "invalid_type" ["client_id"];
                             mkIssue "invalid_type" ["client_secret"]]))
  ∧ ∃ issues, ZodError [mkIssue "invalid_type" ["client_id"];
                        mkIssue "invalid_type" ["client_secret"]] = ZodError issues.
Proof.
  do 3 (split; [reflexivity|]).
  apply (saveKeys_invalid_payload_raises schemas deriveKey admin saveBad store stripeKeys);
    reflexivity.
Defined.

(** C7, as stated, fails: the Stripe row holds keys, but it is filed under
    "other"; the listing of the "payment" variant does not see it and emits
    the key names of the schema instead of the stored keys. *)
Lemma stored_keys_of_other_category_not_listed :
  app_keys <$> apps storeMisfiled !! "stripe" = Some storedStripeKeys
  ∧ (listLocal' admin "payment" storeMisfiled).2 =
      Ok [ mkFilteredApp "Stripe" "stripe" "/api/app-store/stripepayment/icon.svg"
             (Some "Stripe") "stripe_payment" "Collect payments"
             (JArr [JStr "client_id"; JStr "client_secret"]) false ]
  ∧ JArr [JStr "client_id"; JStr "client_secret"] ≠ storedStripeKeys.
Proof. split; [reflexivity|]. split; [reflexivity|]. discriminate. Qed.

Lemma listLocal_keys_stored_or_names_witness :
  session_user_role admin = ADMIN
  ∧ ∃ recs,
      listLocal' admin "payment" storeWithKeys =
        (storeWithKeys, if isAppCategory (resolveCategory "payment") then Ok recs
                        else Err PrismaValidationError)
      ∧ Forall2
          (fun app rec =>
             fa_slug rec = la_slug app
             ∧ fa_keys rec =
                 match visibleRow storeWithKeys "payment" (la_slug app) with
                 | Some row =>
                     if truthy (Some (app_keys row)) then app_keys row
                     else keyNames schemas deriveKey app
                 | None => keyNames schemas deriveKey app
                 end)
          (filter (fun app => la_variant app = "payment") catalogue) recs.
Proof.
  split; [reflexivity|].
  apply (listLocal_keys_stored_or_names catalogue schemas deriveKey isAppCategory admin
           "payment" storeWithKeys); reflexivity.
Defined.

(** Once the keys are saved under the listed category, they are emitted
    verbatim. *)
Lemma listLocal_emits_saved_keys :
  (listLocal' admin "payment" storeWithKeys).2 =
    Ok [ mkFilteredApp "Stripe" "stripe" "/api/app-store/stripepayment/icon.svg"
           (Some "Stripe") "stripe_payment" "Collect payments" storedStripeKeys true ].
Proof. reflexivity. Qed.

Lemma listLocal_null_keys_and_default_flag_witness :
  session_user_role admin = ADMIN
  ∧ ∃ recs,
      listLocal' admin "other" store =
        (store, if isAppCategory (resolveCategory "other") then Ok recs
                else Err PrismaValidationError)
      ∧ Forall2
          (fun app rec =>
             fa_slug rec = la_slug app
             ∧ (truthy (app_keys <$> apps store !! la_slug app) = false →
                schemas !! deriveKey (la_type app) schemas = None →
                fa_keys rec = JNull)
             ∧ (apps store !! la_slug app = None → fa_enabled rec = false))
          (filter (fun app => la_variant app = "other") catalogue) recs.
Proof.
  split; [reflexivity|].
  apply (listLocal_null_keys_and_default_flag catalogue schemas deriveKey isAppCategory admin
           "other" store); reflexivity.
Defined.

(** Giphy has no row and no schema: its record has null keys and is not
    enabled. *)
Lemma listLocal_giphy :
  (listLocal' admin "other" store).2 =
    Ok [ mkFilteredApp "Giphy" "giphy" "/api/app-store/giphy/icon.svg" None
           "giphy_other" "Gifs" JNull false ].
Proof. reflexivity. Qed.

Lemma getStaticProps_invalid_is_notFound_witness :
  (∀ data, Some (JObj [("schedule", JStr "12a")]) = Some (JObj data) →
     ∃ issues, stringOrNumber (assoc "schedule" data) = inl issues)
  ∧ getStaticProps stringOrNumber (Some (JObj [("schedule", JStr "12a")])) = NotFound
  ∧ rendersForm (getStaticProps stringOrNumber (Some (JObj [("schedule", JStr "12a")]))) = false.
Proof.
  assert (H : ∀ data, Some (JObj [("schedule", JStr "12a")]) = Some (JObj data) →
                ∃ issues, stringOrNumber (assoc "schedule" data) = inl issues).
  { intros data [= <-]. by eexists. }
  split; [exact H|].
  exact (getStaticProps_invalid_is_notFound stringOrNumber
           (Some (JObj [("schedule", JStr "12a")])) H).
Defined.

(** A numeric string is accepted and reaches the page as a number. *)
Lemma getStaticProps_numeric_string :
  getStaticProps stringOrNumber (Some (JObj [("schedule", JStr "12")])) = Props (Some (JNum 12)) 10.
Proof. reflexivity. Qed.

(** *** The further statements on the sample data *)

Lemma toggle_unknown_slug_fails_witness :
  session_user_role admin = ADMIN
  ∧ apps store !! ti_slug disableZoom = None
  ∧ toggle catalogue deliverAll admin disableZoom store = (store, Err PrismaRecordNotFound).
Proof.
  do 2 (split; [reflexivity|]).
  apply (toggle_unknown_slug_fails catalogue deliverAll admin disableZoom store); reflexivity.
Defined.


Lemma disabledRow_keeps_other_settings_witness :
  Prisma.marksEnabled "stripe" paidCall = true
  ∧ et_title (disabledRow "stripe" paidCall) = "Paid call"
  ∧ et_users (disabledRow "stripe" paidCall) = [1; 2]
  ∧ (∀ k, k ≠ "apps" →
       Prisma.getPath [k] (et_metadata (disabledRow "stripe" paidCall))
       = Prisma.getPath [k] (et_metadata paidCall))
  ∧ (∀ other, other ≠ "stripe" →
       Prisma.getPath ["apps"; other] (et_metadata (disabledRow "stripe" paidCall))
       = Prisma.getPath ["apps"; other] (et_metadata paidCall))
  ∧ (∀ field, field ≠ "enabled" →
       Prisma.getPath ["apps"; "stripe"; field] (et_metadata (disabledRow "stripe" paidCall))
       = Prisma.getPath ["apps"; "stripe"; field] (et_metadata paidCall))
  ∧ Prisma.getPath ["apps"; "stripe"; "enabled"] (et_metadata (disabledRow "stripe" paidCall))
    = Some (JBool false).
Proof.
  split; [reflexivity|].
  apply (disabledRow_keeps_other_settings "stripe" paidCall); reflexivity.
Defined.

(** The price set for Stripe on the event type survives the switch. *)
Lemma disabledRow_keeps_price :
  Prisma.getPath ["apps"; "stripe"; "price"] (et_metadata (disabledRow "stripe" paidCall))
  = Some (JNum 500).
Proof. reflexivity. Qed.

Lemma toggle_twice_is_once_witness :
  (∀ row, apps store !! ti_slug disableStripe = Some row → ti_enabled disableStripe = true →
          isCalendarOrVideo (app_categories row) = false)
  ∧ toggle catalogue deliverAll admin disableStripe
      (toggle catalogue deliverAll admin disableStripe store).1
    = toggle catalogue deliverAll admin disableStripe store.
Proof.
  assert (H : ∀ row, apps store !! ti_slug disableStripe = Some row →
                ti_enabled disableStripe = true →
                isCalendarOrVideo (app_categories row) = false).
  { intros row [= <-] _. reflexivity. }
  split; [exact H|].
  exact (toggle_twice_is_once catalogue deliverAll admin disableStripe store H).
Defined.

(** Disabling a calendar app twice is not the same as once: the credential
    holders are notified again. *)
Lemma toggle_calendar_twice_notifies_twice :
  length (outbox (toggle catalogue deliverAll admin disableCalendar store).1) = 2
  ∧ length (outbox (toggle catalogue deliverAll admin disableCalendar
                      (toggle catalogue deliverAll admin disableCalendar store).1).1) = 4.
Proof. split; reflexivity. Qed.

Lemma listLocal_mirrors_catalogue_witness :
  session_user_role admin = ADMIN
  ∧ ∃ recs,
      listLocal' admin "payment" store =
        (store, if isAppCategory (resolveCategory "payment") then Ok recs
                else Err PrismaValidationError)
      ∧ Forall2
          (fun app rec =>
             fa_name rec = la_name app ∧ fa_slug rec = la_slug app ∧ fa_logo rec = la_logo app
             ∧ fa_title rec = la_title app ∧ fa_type rec = la_type app
             ∧ fa_description rec = la_description app)
          (filter (fun app => la_variant app = "payment") catalogue) recs.
Proof.
  split; [reflexivity|].
  apply (listLocal_mirrors_catalogue catalogue schemas deriveKey isAppCategory admin
           "payment" store); reflexivity.
Defined.

Lemma listLocal_enabled_flag_witness :
  session_user_role admin = ADMIN
  ∧ ∃ recs,
      listLocal' admin "payment" storeMisfiled =
        (storeMisfiled, if isAppCategory (resolveCategory "payment") then Ok recs
                        else Err PrismaValidationError)
      ∧ Forall2
          (fun app rec =>
             fa_slug rec = la_slug app
             ∧ fa_enabled rec =
                 match apps storeMisfiled !! la_slug app with
                 | Some row =>
                     bool_decide (resolveCategory "payment" ∈ app_categories row)
                     && app_enabled row
                 | None => false
                 end)
          (filter (fun app => la_variant app = "payment") catalogue) recs.
Proof.
  split; [reflexivity|].
  apply (listLocal_enabled_flag catalogue schemas deriveKey isAppCategory admin
           "payment" storeMisfiled); reflexivity.
Defined.

Lemma saveKeys_without_schema_fails_witness :
  session_user_role admin = ADMIN
  ∧ schemas !! deriveKey (sk_type saveGiphy) schemas = None
  ∧ saveKeys' admin saveGiphy store = (store, Err (TypeError "parse")).
Proof.
  do 2 (split; [reflexivity|]).
  apply (saveKeys_without_schema_fails schemas deriveKey admin saveGiphy store); reflexivity.
Defined.

Lemma saveKeys_unknown_slug_fails_witness :
  session_user_role admin = ADMIN
  ∧ schemas !! deriveKey (sk_type savePaypal) schemas = Some stripeKeys
  ∧ Zod.parse stripeKeys (sk_keys savePaypal) =
      Ok (JObj [("client_id", JStr "ca_1"); ("client_secret", JStr "sk_1")])
  ∧ apps store !! sk_slug savePaypal = None
  ∧ saveKeys' admin savePaypal store = (store, Err PrismaRecordNotFound).
Proof.
  do 4 (split; [reflexivity|]).
  apply (saveKeys_unknown_slug_fails schemas deriveKey admin savePaypal store stripeKeys
           (JObj [("client_id", JStr "ca_1"); ("client_secret", JStr "sk_1")])); reflexivity.
Defined.

Lemma stripeApp_listed : stripeApp ∈ catalogue.
Proof. left. Qed.

Lemma payment_is_stripe_category : resolveCategory "payment" ∈ ["payment"].
Proof. left. Qed.

Lemma saveKeys_then_listLocal_witness :
  session_user_role admin = ADMIN
  ∧ schemas !! deriveKey (sk_type saveRich) schemas = Some stripeKeys
  ∧ Zod.parse stripeKeys (sk_keys saveRich) =
      Ok (JObj [("client_id", JStr "ca_1"); ("client_secret", JStr "sk_1")])
  ∧ apps store !! sk_slug saveRich = Some (mkApp ["payment"] JNull true)
  ∧ isAppCategory (resolveCategory "payment") = true
  ∧ la_variant stripeApp = "payment"
  ∧ la_slug stripeApp = sk_slug saveRich
  ∧ ∃ recs rec,
      (saveKeys' admin saveRich store).2 = Ok tt
      ∧ (listLocal' admin "payment" (saveKeys' admin saveRich store).1).2 = Ok recs
      ∧ rec ∈ recs
      ∧ fa_slug rec = sk_slug saveRich
      ∧ Some (fa_keys rec) = sk_keys saveRich
      ∧ fa_enabled rec = true.
Proof.
  do 7 (split; [reflexivity|]).
  apply (saveKeys_then_listLocal catalogue schemas deriveKey isAppCategory admin saveRich store
           stripeKeys (JObj [("client_id", JStr "ca_1"); ("client_secret", JStr "sk_1")])
           (mkApp ["payment"] JNull true) "payment" stripeApp);
    try reflexivity; [exact payment_is_stripe_category | exact stripeApp_listed].
Defined.

Lemma toggle_then_listLocal_witness :
  session_user_role admin = ADMIN
  ∧ apps store !! ti_slug disableStripe = Some (mkApp ["payment"] JNull true)
  ∧ isAppCategory (resolveCategory "payment") = true
  ∧ la_variant stripeApp = "payment"
  ∧ la_slug stripeApp = ti_slug disableStripe
  ∧ ∃ recs rec,
      (listLocal' admin "payment" (toggle catalogue deliverAll admin disableStripe store).1).2
        = Ok recs
      ∧ rec ∈ recs
      ∧ fa_slug rec = ti_slug disableStripe
      ∧ fa_enabled rec = false
      ∧ (toggle catalogue deliverAll admin disableStripe store).2 = Ok (fa_enabled rec).
Proof.
  do 5 (split; [reflexivity|]).
  apply (toggle_then_listLocal catalogue schemas deriveKey isAppCategory deliverAll admin
           disableStripe store (mkApp ["payment"] JNull true) "payment" stripeApp);
    try reflexivity; [exact payment_is_stripe_category | exact stripeApp_listed].
Defined.

Lemma getStaticProps_accepts_parsed_value_witness :
  stringOrNumber (assoc "schedule" [("schedule", JStr "12"); ("tab", JStr "hours")])
    = inr (Some (JNum 12))
  ∧ getStaticProps stringOrNumber
      (Some (JObj [("schedule", JStr "12"); ("tab", JStr "hours")])) = Props (Some (JNum 12)) 10
  ∧ rendersForm (getStaticProps stringOrNumber
                   (Some (JObj [("schedule", JStr "12"); ("tab", JStr "hours")]))) = true.
Proof.
  split; [reflexivity|].
  apply (getStaticProps_accepts_parsed_value stringOrNumber
           [("schedule", JStr "12"); ("tab", JStr "hours")] (Some (JNum 12))); reflexivity.
Defined.

Lemma eventTypeGroups_one_entry_per_group_witness :
  Forall (fun g => ∃ first rest,
            group_eventTypes g = first :: rest
            ∧ (item_team first = None → item_users first ≠ [])) [teamGroup; userGroup]
  ∧ ∃ views,
      eventTypeGroups (Some [teamGroup; userGroup]) = Ok (Some views)
      ∧ Forall2
          (fun g v =>
             eventTypeNames v = item_title <$> group_eventTypes g
             ∧ ∃ first, head (group_eventTypes g) = Some first
                 ∧ groupName v =
                     match item_team first with
                     | Some team => orElseStr (team_name team) ""
                     | None => orElseStr (head (item_users first) ≫= member_name) ""
                     end)
          [teamGroup; userGroup] views.
Proof.
  assert (H : Forall (fun g => ∃ first rest,
                        group_eventTypes g = first :: rest
                        ∧ (item_team first = None → item_users first ≠ []))
                [teamGroup; userGroup]).
  { repeat constructor.
    - eexists _, _. split; [reflexivity|]. discriminate.
    - eexists _, _. split; [reflexivity|]. discriminate. }
  split; [exact H|].
  exact (eventTypeGroups_one_entry_per_group [teamGroup; userGroup] H).
Defined.

(** The two sample groups: the team's is labelled by the team although its
    second event type has none, the user's by the empty string. *)
Lemma eventTypeGroups_sample :
  eventTypeGroups (Some [teamGroup; userGroup]) =
    Ok (Some [mkView "Sales" ["Demo"; "Follow-up"]; mkView "" ["30 min"]]).
Proof. reflexivity. Qed.

Lemma eventTypeGroups_throws_on_bad_group_witness :
  Exists (fun g => match group_eventTypes g with
                   | [] => True
                   | first :: _ => item_team first = None ∧ item_users first = []
                   end) [teamGroup; emptyGroup; userGroup]
  ∧ ∃ what, eventTypeGroups (Some [teamGroup; emptyGroup; userGroup]) = Err (TypeError what).
Proof.
  assert (H : Exists (fun g => match group_eventTypes g with
                               | [] => True
                               | first :: _ => item_team first = None ∧ item_users first = []
                               end) [teamGroup; emptyGroup; userGroup]).
  { right. left. exact I. }
  split; [exact H|].
  exact (eventTypeGroups_throws_on_bad_group [teamGroup; emptyGroup; userGroup] H).
Defined.

End OnSample.
